(** * Address book (main.py): fields, records, the book and its queries

    A shallow embedding of [Field]/[Phone]/[Birthday], [Record] and
    [AddressBook] of main.py, and the properties of the specification
    stated over it.

    Conventions of the embedding.
    - A Python [str] is a [string]: a sequence of 8-bit characters read as
      the code points U+0000..U+00FF.  [str.lower], [str.isdigit] and the
      [\d] class are given on that range as Python defines them there.
    - A Python value that reaches a field is a [pyval]: [None], a [str] or
      an [int] (standing for the values that are neither).
    - A method that mutates [self] is a computation [M S A]: it takes the
      object's state and returns the state it leaves behind together with its
      outcome, a value or a raised exception.  The state is returned on a
      raise too, so that what an exception leaves behind can be stated.
    - [datetime.now()] is an argument of the methods that read the clock.
    - Objects are embedded by value.  The only object main.py can come to
      hold in two places is a [Phone] ([add_record] extends a phone list
      with the phones of another record, or of the same one); the value
      model differs from the program only when such a phone is then
      edited with success, in which positions show the new number.
      Nothing stated below depends on that. *)

From Stdlib Require Import ZArith List String Ascii Bool Lia DecimalString.
Import ListNotations.
Open Scope string_scope.
Open Scope Z_scope.

(* ================================================================== *)
(** ** Python strings and values *)

Module Py.

Definition code (c : ascii) : Z := Z.of_N (N_of_ascii c).
Definition chr (n : Z) : ascii := ascii_of_N (Z.to_N n).

Definition between (lo hi n : Z) : bool := (lo <=? n) && (n <=? hi).

(** [str.lower] on one character: A-Z, and the capital letters
    U+00C0..U+00DE apart from the multiplication sign U+00D7. *)
Definition lower_char (c : ascii) : ascii :=
  let n := code c in
  if between 65 90 n || (between 192 222 n && negb (n =? 215))
  then chr (n + 32) else c.

Fixpoint lower (s : string) : string :=
  match s with
  | EmptyString => EmptyString
  | String c s' => String (lower_char c) (lower s')
  end.

(** The [\d] class of [re] (category Nd): on this range, 0-9. *)
Definition is_decimal (c : ascii) : bool := between 48 57 (code c).

(** A character [str.isdigit] accepts (Numeric_Type Digit or Decimal): 0-9
    and the superscripts U+00B2, U+00B3 and U+00B9. *)
Definition isdigit_char (c : ascii) : bool :=
  let n := code c in
  between 48 57 n || (n =? 178) || (n =? 179) || (n =? 185).

Fixpoint all_chars (p : ascii -> bool) (s : string) : bool :=
  match s with
  | EmptyString => true
  | String c s' => p c && all_chars p s'
  end.

(** [s.isdigit()]: every character is a digit and there is at least one. *)
Definition isdigit (s : string) : bool :=
  match s with
  | EmptyString => false
  | _ => all_chars isdigit_char s
  end.

Definition len (s : string) : Z := Z.of_nat (String.length s).

(** [q in s] on strings: [q] occurs in [s] as a substring. *)
Fixpoint str_in (q s : string) : bool :=
  prefix q s ||
  match s with
  | EmptyString => false
  | String _ s' => str_in q s'
  end.

(** [sep.join(l)]. *)
Fixpoint join (sep : string) (l : list string) : string :=
  match l with
  | [] => ""
  | [x] => x
  | x :: l' => x ++ sep ++ join sep l'
  end.

Inductive pyval : Type :=
| PyNone
| PyStr (s : string)
| PyInt (n : Z).

Definition is_None (v : pyval) : bool :=
  match v with PyNone => true | _ => false end.

Definition isinstance_str (v : pyval) : bool :=
  match v with PyStr _ => true | _ => false end.

(** Truth value of [v] in a condition. *)
Definition truthy (v : pyval) : bool :=
  match v with
  | PyNone => false
  | PyStr s => negb (s =? "")%string
  | PyInt n => negb (n =? 0)
  end.

(** [str(v)]. *)
Definition str (v : pyval) : string :=
  match v with
  | PyNone => "None"
  | PyStr s => s
  | PyInt n => NilEmpty.string_of_int (Z.to_int n)
  end.

Inductive exn : Type :=
| ValueError (msg : string)
| TypeError
| KeyError (key : string)
| StopIteration.

Inductive result (A : Type) : Type :=
| Ok (a : A)
| Raise (e : exn).
Arguments Ok {A} a.
Arguments Raise {A} e.

Definition is_ok {A} (r : result A) : bool :=
  match r with Ok _ => true | Raise _ => false end.

(** A method over a mutable object of state [S]. *)
Definition M (S A : Type) : Type := S -> S * result A.

Definition ret {S A} (a : A) : M S A := fun s => (s, Ok a).
Definition raise {S A} (e : exn) : M S A := fun s => (s, Raise e).
Definition bind {S A B} (m : M S A) (k : A -> M S B) : M S B :=
  fun s => match m s with
           | (s', Ok a) => k a s'
           | (s', Raise e) => (s', Raise e)
           end.
Definition get {S} : M S S := fun s => (s, Ok s).
Definition put {S} (s : S) : M S unit := fun _ => (s, Ok tt).

(** A computation that reads nothing and mutates nothing. *)
Definition pure {S A} (r : result A) : M S A := fun s => (s, r).

End Py.
Import Py.

Notation "x <- m ;; k" := (bind m (fun x => k))
  (at level 61, m at next level, right associativity).
Notation "m ;;; k" := (bind m (fun _ => k))
  (at level 61, right associativity).

(* ================================================================== *)
(** ** Field, Name, Phone *)

(** [Name(Field)]: [Field.validate] accepts everything; the names main.py
    handles are strings (it calls [.lower()] on them). *)
Record Name : Type := mkName { name_value : string }.

Definition Name_str (n : Name) : string := name_value n.

Record Phone : Type := mkPhone { phone_value : pyval }.

Definition validate_phone (value : pyval) : result unit :=
  if negb (is_None value) &&
     (negb (isinstance_str value) ||
      negb ((len (str value) =? 10) && isdigit (str value)))
  then Raise (ValueError "Invalid phone number format")
  else Ok tt.

(** The [value] setter of [Phone]: validate, then assign. *)
Definition Phone_set_value (new_value : pyval) : M Phone unit :=
  pure (validate_phone new_value) ;;;
  put (mkPhone new_value).

(** [Phone(value)]: [Field.__init__] sets [_value] to [None] and assigns
    through the setter; a raise leaves no object behind. *)
Definition Phone_new (value : pyval) : result Phone :=
  match Phone_set_value value (mkPhone PyNone) with
  | (p, Ok _) => Ok p
  | (_, Raise e) => Raise e
  end.

(** What [Record.__str__] and [to_json] show of a phone. *)
Definition Phone_display (p : Phone) : string := str (phone_value p).

(* ================================================================== *)
(** ** datetime: the part of the standard module the program uses *)

Module Datetime.

Record datetime : Type := mkDatetime {
  year : Z; month : Z; day : Z;
  hour : Z; minute : Z; second : Z; microsecond : Z
}.

Definition is_leap (y : Z) : bool :=
  (y mod 4 =? 0) && (negb (y mod 100 =? 0) || (y mod 400 =? 0)).

Definition days_in_month (y m : Z) : Z :=
  if m =? 2 then (if is_leap y then 29 else 28)
  else if (m =? 4) || (m =? 6) || (m =? 9) || (m =? 11) then 30
  else 31.

(** Days before January 1st of year [y]. *)
Definition days_before_year (y : Z) : Z :=
  let p := y - 1 in p * 365 + p / 4 - p / 100 + p / 400.

(** Days of year [y] before the first day of month [m]. *)
Definition days_before_month (y m : Z) : Z :=
  fold_left (fun acc k => acc + days_in_month y (Z.of_nat k))
            (seq 1 (Z.to_nat (m - 1))) 0.

(** Proleptic Gregorian ordinal, January 1st of year 1 being day 1. *)
Definition ymd2ord (y m d : Z) : Z :=
  days_before_year y + days_before_month y m + d.

Definition toordinal (t : datetime) : Z := ymd2ord (year t) (month t) (day t).

Definition valid_date (y m d : Z) : bool :=
  between 1 9999 y && between 1 12 m && between 1 (days_in_month y m) d.

(** [datetime(y, m, d)]: midnight of that day, or [ValueError]. *)
Definition datetime_ymd (y m d : Z) : result datetime :=
  if negb (between 1 9999 y)
  then Raise (ValueError ("year " ++ str (PyInt y) ++ " is out of range"))
  else if negb (between 1 12 m) then Raise (ValueError "month must be in 1..12")
  else if negb (between 1 (days_in_month y m) d)
       then Raise (ValueError "day is out of range for month")
  else Ok (mkDatetime y m d 0 0 0 0).

(** Microseconds since midnight. *)
Definition time_of_day (t : datetime) : Z :=
  ((hour t * 60 + minute t) * 60 + second t) * 1000000 + microsecond t.

Definition us_per_day : Z := 86400 * 1000000.

(** Position of [t] on the time line, in microseconds. *)
Definition instant (t : datetime) : Z := toordinal t * us_per_day + time_of_day t.

(** [a > b] on naive datetimes. *)
Definition gt (a b : datetime) : bool := instant b <? instant a.

(** [(a - b).days]: a timedelta is normalised with 0 <= seconds and
    0 <= microseconds, so its [days] is the floor. *)
Definition sub_days (a b : datetime) : Z := (instant a - instant b) / us_per_day.

(** *** strftime('%Y-%m-%d') *)

Definition digit_char (d : Z) : ascii := chr (48 + d).

Definition pad2 (n : Z) : string :=
  String (digit_char (n / 10)) (String (digit_char (n mod 10)) "").

Definition pad4 (n : Z) : string :=
  String (digit_char (n / 1000))
    (String (digit_char (n / 100 mod 10)) (pad2 (n mod 100))).

(** [%Y] as the C library writes it for CPython on Linux: the year in
    decimal with no padding, so a year below 1000 has fewer than four
    digits. *)
Definition year_str (y : Z) : string :=
  if y <? 10 then String (digit_char y) ""
  else if y <? 100 then pad2 y
  else if y <? 1000 then String (digit_char (y / 100)) (pad2 (y mod 100))
  else pad4 y.

Definition strftime_ymd (t : datetime) : string :=
  year_str (year t) ++ "-" ++ pad2 (month t) ++ "-" ++ pad2 (day t).

(** *** strptime(s, '%Y-%m-%d')

    [_strptime] turns the format into the regular expression
    [(?P<Y>\d\d\d\d)-(?P<m>1[0-2]|0[1-9]|[1-9])-(?P<d>3[0-1]|[1-2]\d|0[1-9]|[1-9]| [1-9])],
    matches it at the start of the string, refuses what is left over, and
    builds the date.  The alternatives are tried in order, with
    backtracking. *)

Definition alt : Type := string -> option (Z * string).

(** A decimal digit whose value lies in [lo..hi]. *)
Definition digit_in (lo hi : Z) : alt := fun s =>
  match s with
  | String c r =>
      if is_decimal c && between lo hi (code c - 48)
      then Some (code c - 48, r) else None
  | EmptyString => None
  end.

Definition char_is (ch : ascii) (s : string) : option string :=
  match s with
  | String c r => if Ascii.eqb c ch then Some r else None
  | EmptyString => None
  end.

(** Two digits in a row, read as a number. *)
Definition two (a b : alt) : alt := fun s =>
  match a s with
  | Some (x, r) =>
      match b r with
      | Some (y, r') => Some (10 * x + y, r')
      | None => None
      end
  | None => None
  end.

Definition blank_then (a : alt) : alt := fun s =>
  match char_is " " s with
  | Some r => a r
  | None => None
  end.

Definition year4 : alt := fun s =>
  match two (digit_in 0 9) (digit_in 0 9) s with
  | Some (hi, r) =>
      match two (digit_in 0 9) (digit_in 0 9) r with
      | Some (lo, r') => Some (100 * hi + lo, r')
      | None => None
      end
  | None => None
  end.

Definition m_alts : list alt :=
  [ two (digit_in 1 1) (digit_in 0 2);
    two (digit_in 0 0) (digit_in 1 9);
    digit_in 1 9 ].

Definition d_alts : list alt :=
  [ two (digit_in 3 3) (digit_in 0 1);
    two (digit_in 1 2) (digit_in 0 9);
    two (digit_in 0 0) (digit_in 1 9);
    digit_in 1 9;
    blank_then (digit_in 1 9) ].

(** The first alternative, in order, after which the rest of the pattern
    [k] matches as well. *)
Fixpoint first_alt {A} (alts : list alt) (s : string)
         (k : Z -> string -> option A) : option A :=
  match alts with
  | [] => None
  | a :: alts' =>
      match a s with
      | Some (v, r) =>
          match k v r with
          | Some x => Some x
          | None => first_alt alts' s k
          end
      | None => first_alt alts' s k
      end
  end.

(** The match of [(?P<m>...)-(?P<d>...)] at the start of [s]: month, day
    and the unmatched rest. *)
Definition match_md (s : string) : option (Z * Z * string) :=
  first_alt m_alts s (fun m s3 =>
    match char_is "-" s3 with
    | None => None
    | Some s4 => first_alt d_alts s4 (fun d s5 => Some (m, d, s5))
    end).

(** The match of the whole pattern at the start of [s]; the year part has
    a single way to match. *)
Definition match_ymd (s : string) : option (Z * Z * Z * string) :=
  match year4 s with
  | None => None
  | Some (y, s1) =>
      match char_is "-" s1 with
      | None => None
      | Some s2 =>
          match match_md s2 with
          | Some (m, d, rest) => Some (y, m, d, rest)
          | None => None
          end
      end
  end.

(** [datetime.strptime(data_string, '%Y-%m-%d')].  The messages of its
    errors, which quote the string, are cut short here: the program
    replaces them. *)
Definition strptime_ymd (data_string : pyval) : result datetime :=
  match data_string with
  | PyStr s =>
      match match_ymd s with
      | None => Raise (ValueError "time data does not match format")
      | Some (y, m, d, rest) =>
          if negb (rest =? "")%string
          then Raise (ValueError "unconverted data remains")
          else datetime_ymd y m d
      end
  | _ => Raise TypeError
  end.

End Datetime.
Import Datetime.

(* ================================================================== *)
(** ** Birthday *)

Definition validate_birthday (value : pyval) : result unit :=
  if negb (is_None value) then
    match strptime_ymd value with
    | Ok _ => Ok tt
    | Raise (ValueError _) =>
        Raise (ValueError "Invalid birthday format. Please use YYYY-MM-DD")
    | Raise e => Raise e
    end
  else Ok tt.

(** The [value] setter of [Birthday], over the [_value] cell: validate,
    then store the parsed datetime. *)
Definition Birthday_set_value (new_value : pyval) : M (option datetime) unit :=
  pure (validate_birthday new_value) ;;;
  d <- pure (strptime_ymd new_value) ;;
  put (Some d).

(** A constructed [Birthday]: its cell holds a datetime. *)
Record Birthday : Type := mkBirthday { birthday_value : datetime }.

(** [Birthday(value)]: the cell starts as [None] and is assigned through
    the setter, which on success has stored a datetime (the second case
    is not reached). *)
Definition Birthday_new (value : pyval) : result Birthday :=
  match Birthday_set_value value None with
  | (Some d, Ok _) => Ok (mkBirthday d)
  | (None, Ok _) => Raise TypeError
  | (_, Raise e) => Raise e
  end.

Definition Birthday_str (b : Birthday) : string := strftime_ymd (birthday_value b).

(* ================================================================== *)
(** ** Record *)

Record record : Type := mkRecord {
  name : Name;
  birthday : option Birthday;
  phones : list Phone
}.

(** A list comprehension whose element expression can raise: the first
    raise ends it. *)
Fixpoint comprehension {A B} (f : A -> result B) (l : list A) : result (list B) :=
  match l with
  | [] => Ok []
  | x :: l' =>
      match f x with
      | Raise e => Raise e
      | Ok y =>
          match comprehension f l' with
          | Raise e => Raise e
          | Ok ys => Ok (y :: ys)
          end
      end
  end.

(** [Record(name, birthday, phones)]; [phones] is [None] or a list. *)
Definition Record_new (name_ : string) (birthday_ : pyval)
           (phones_ : option (list pyval)) : result record :=
  match (if truthy birthday_
         then match Birthday_new birthday_ with
              | Ok b => Ok (Some b)
              | Raise e => Raise e
              end
         else Ok None) with
  | Raise e => Raise e
  | Ok b =>
      match (match phones_ with
             | Some (p :: ps) => comprehension Phone_new (p :: ps)
             | _ => Ok []
             end) with
      | Raise e => Raise e
      | Ok ps => Ok (mkRecord (mkName name_) b ps)
      end
  end.

Definition set_phones (ps : list Phone) (r : record) : record :=
  mkRecord (name r) (birthday r) ps.

Definition add_phone (phone : pyval) : M record unit :=
  p <- pure (Phone_new phone) ;;
  self <- get ;;
  put (set_phones (phones self ++ [p]) self).

(** [str(phone.value) == old_phone]. *)
Definition str_equals (s : string) (v : pyval) : bool :=
  match v with
  | PyStr t => (s =? t)%string
  | _ => false
  end.

(** The [for ... else] of [edit_phone] over the phone list: the first
    phone whose text is [old_phone] is assigned [new_phone] and the loop
    ends; a loop that ends without a match raises. *)
Fixpoint edit_phone_loop (old_phone new_phone : pyval) (ps : list Phone)
  : list Phone * result unit :=
  match ps with
  | [] => ([], Raise (ValueError "Phone number does not exist in the record"))
  | phone :: rest =>
      if str_equals (str (phone_value phone)) old_phone
      then let (phone', r) := Phone_set_value new_phone phone in
           (phone' :: rest, r)
      else let (rest', r) := edit_phone_loop old_phone new_phone rest in
           (phone :: rest', r)
  end.

Definition edit_phone (old_phone new_phone : pyval) : M record unit :=
  fun self =>
    let (ps, r) := edit_phone_loop old_phone new_phone (phones self) in
    (set_phones ps self, r).

Definition get_phones (self : record) : list string :=
  map (fun phone => str (phone_value phone)) (phones self).

(** [days_to_birthday], [now] being what [datetime.now()] returns. *)
Definition days_to_birthday (self : record) (now : datetime) : result (option Z) :=
  match birthday self with
  | Some b =>
      let today := now in
      match datetime_ymd (year today) (month (birthday_value b))
                         (day (birthday_value b)) with
      | Raise e => Raise e
      | Ok next_birthday =>
          match (if gt today next_birthday
                 then datetime_ymd (year today + 1) (month (birthday_value b))
                                   (day (birthday_value b))
                 else Ok next_birthday) with
          | Raise e => Raise e
          | Ok next_birthday =>
              let days_remaining := sub_days next_birthday today in
              Ok (Some days_remaining)
          end
      end
  | None => Ok None
  end.

(** [Record.__str__]. *)
Definition Record_str (self : record) : string :=
  let phones_str := join ", " (map (fun phone => str (phone_value phone)) (phones self)) in
  let birthday_str :=
    match birthday self with
    | Some b => ", birthday: " ++ Birthday_str b
    | None => ""
    end in
  "Contact name: " ++ Name_str (name self) ++ ", phones: " ++ phones_str ++ birthday_str.

(** One element of the persisted array.  What [to_json] writes has a
    string or [null] for the birthday and a list of strings for the
    phones; a file can hold any value there, or no [phones] key. *)
Record json_entry : Type := mkEntry {
  j_name : string;
  j_birthday : pyval;
  j_phones : option (list pyval)
}.

Definition to_json (self : record) : json_entry :=
  mkEntry (Name_str (name self))
          (match birthday self with
           | Some b => PyStr (Birthday_str b)
           | None => PyNone
           end)
          (Some (map (fun phone => PyStr (str (phone_value phone))) (phones self))).

(* ================================================================== *)
(** ** AddressBook *)

(** [self.data]: a dict, kept in insertion order. *)
Definition dict : Type := list (string * record).

(** [d[key] = v]: a present key keeps its place. *)
Fixpoint dict_set (key : string) (v : record) (d : dict) : dict :=
  match d with
  | [] => [(key, v)]
  | (k, x) :: d' =>
      if (k =? key)%string then (k, v) :: d' else (k, x) :: dict_set key v d'
  end.

Fixpoint dict_has (key : string) (d : dict) : bool :=
  match d with
  | [] => false
  | (k, _) :: d' => (k =? key)%string || dict_has key d'
  end.

Fixpoint dict_remove (key : string) (d : dict) : dict :=
  match d with
  | [] => []
  | (k, x) :: d' =>
      if (k =? key)%string then d' else (k, x) :: dict_remove key d'
  end.

Record AddressBook : Type := mkBook {
  data : dict;
  page_size : Z;
  current_page : Z
}.

Definition AddressBook_new : AddressBook := mkBook [] 5 1.

Definition set_data (d : dict) (self : AddressBook) : AddressBook :=
  mkBook d (page_size self) (current_page self).

Definition values (self : AddressBook) : list record := map snd (data self).

(** [r.name.value.lower() == lowered]. *)
Definition name_is (lowered : string) (r : record) : bool :=
  (lower (name_value (name r)) =? lowered)%string.

(** Runs the method [m] on the first record of the dict that satisfies
    [p], in place. *)
Fixpoint on_first {A} (p : record -> bool) (m : M record A) (d : dict)
  : option (dict * result A) :=
  match d with
  | [] => None
  | (k, r) :: d' =>
      if p r then let (r', out) := m r in Some ((k, r') :: d', out)
      else match on_first p m d' with
           | Some (d'', out) => Some ((k, r) :: d'', out)
           | None => None
           end
  end.

(** [existing_record.phones.extend(record.phones)]. *)
Definition extend_phones (more : list Phone) : M record unit :=
  fun self => (set_phones (phones self ++ more) self, Ok tt).

(** [add_record]: [next(...)] takes the first record of that lowered
    name, and would raise StopIteration if there were none. *)
Definition add_record (r : record) : M AddressBook unit :=
  fun self =>
    if existsb (name_is (lower (name_value (name r)))) (values self)
    then match on_first (name_is (lower (name_value (name r))))
                        (extend_phones (phones r)) (data self) with
         | Some (d, out) => (set_data d self, out)
         | None => (self, Raise StopIteration)
         end
    else (set_data (dict_set (name_value (name r)) r (data self)) self, Ok tt).

Definition find (self : AddressBook) (name_ : string) : option record :=
  let name_lower := lower name_ in
  List.find (name_is name_lower) (values self).

Definition delete (name_ : string) : M AddressBook unit :=
  fun self =>
    match List.find (name_is (lower name_)) (values self) with
    | Some r =>
        if dict_has (name_value (name r)) (data self)
        then (set_data (dict_remove (name_value (name r)) (data self)) self, Ok tt)
        else (self, Raise (KeyError (name_value (name r))))
    | None => (self, Ok tt)
    end.

(** [change_phone]: [self.find(name_lower)] lowers its argument once
    more and returns the first record of that lowered name, or [None];
    [edit_phone] then runs on that record, in the dict. *)
Definition change_phone (name_ : string) (old_phone new_phone : pyval)
  : M AddressBook unit :=
  fun self =>
    let name_lower := lower name_ in
    match on_first (name_is (lower name_lower))
                   (edit_phone old_phone new_phone) (data self) with
    | Some (d, out) => (set_data d self, out)
    | None => (self, Raise (ValueError ("Contact " ++ name_ ++ " not found")))
    end.

Definition search (self : AddressBook) (query : string) : list string :=
  let query := lower query in
  map Record_str
    (filter (fun r =>
               str_in query (lower (name_value (name r))) ||
               existsb (fun phone => str_in query (str (phone_value phone))) (phones r))
            (values self)).

(** The array [save_to_file] dumps. *)
Definition save_to_file (self : AddressBook) : list json_entry :=
  map to_json (values self).

(** The dict comprehension of [load_from_file]. *)
Fixpoint load_entries (entries : list json_entry) (acc : dict) : result dict :=
  match entries with
  | [] => Ok acc
  | e :: entries' =>
      match Record_new (j_name e) (j_birthday e) (j_phones e) with
      | Raise ex => Raise ex
      | Ok r => load_entries entries' (dict_set (j_name e) r acc)
      end
  end.

(** [load_from_file]: [file] is the parsed content, [None] when the file
    does not exist (the notice printed then is not part of the state). *)
Definition load_from_file (file : option (list json_entry)) : M AddressBook unit :=
  fun self =>
    match file with
    | None => (self, Ok tt)
    | Some entries =>
        match load_entries entries [] with
        | Ok d => (set_data d self, Ok tt)
        | Raise e => (self, Raise e)
        end
    end.

(** [l[start:stop]] for integers of either sign. *)
Definition slice {A} (l : list A) (start stop : Z) : list A :=
  let n := Z.of_nat (List.length l) in
  let clamp i := if i <? 0 then Z.max (i + n) 0 else Z.min i n in
  let lo := clamp start in
  let hi := clamp stop in
  firstn (Z.to_nat (hi - lo)) (skipn (Z.to_nat lo) l).

Definition get_page (self : AddressBook) (page_number : Z) : list record :=
  let start_index := (page_number - 1) * page_size self in
  let end_index := start_index + page_size self in
  slice (values self) start_index end_index.

(** A generator, as the strings it has yet to yield. *)
Definition generator : Type := list string.

Definition record_iterator (self : AddressBook) : generator :=
  map Record_str (values self).

Definition next (g : generator) : generator * result string :=
  match g with
  | x :: g' => (g', Ok x)
  | [] => ([], Raise StopIteration)
  end.

(** The loop of [get_n_records], with [rounds] iterations of [range(n)]
    left: each one asks a new generator for its next element. *)
Fixpoint get_n_loop (self : AddressBook) (rounds : nat) (records : list string)
  : list string :=
  match rounds with
  | O => records
  | S rounds' =>
      match next (record_iterator self) with
      | (_, Ok r) => get_n_loop self rounds' (records ++ [r])
      | (_, Raise _) => records
      end
  end.

Definition get_n_records (self : AddressBook) (n : Z) : list string :=
  get_n_loop self (Z.to_nat n) [].

(* ================================================================== *)
(** ** Record: remove_phone and find_phone *)

(** [Phone] and [Field] define no [__str__], so [str(p)] on a phone object
    is the text [object] gives: the class and the address of the object
    between angle brackets, not the number.  [object_str i] stands for
    that text for the object at position [i] of the phone list. *)

(** [[p for p in self.phones if str(p) != phone]], from position [i] on. *)
Fixpoint phones_kept (object_str : nat -> string) (phone : pyval)
         (i : nat) (ps : list Phone) : list Phone :=
  match ps with
  | [] => []
  | p :: ps' =>
      if negb (str_equals (object_str i) phone)
      then p :: phones_kept object_str phone (S i) ps'
      else phones_kept object_str phone (S i) ps'
  end.

Definition remove_phone (object_str : nat -> string) (phone : pyval) : M record unit :=
  fun self => (set_phones (phones_kept object_str phone 0 (phones self)) self, Ok tt).

(** [[p.value for p in self.phones if str(p) == phone]], from position [i] on. *)
Fixpoint phones_found (object_str : nat -> string) (phone : pyval)
         (i : nat) (ps : list Phone) : list pyval :=
  match ps with
  | [] => []
  | p :: ps' =>
      if str_equals (object_str i) phone
      then phone_value p :: phones_found object_str phone (S i) ps'
      else phones_found object_str phone (S i) ps'
  end.

Definition find_phone (object_str : nat -> string) (phone : pyval) (self : record) : pyval :=
  match phones_found object_str phone 0 (phones self) with
  | x :: _ => x
  | [] => PyNone
  end.

(* ================================================================== *)
(** ** The commands over the book [contacts] *)

Module Commands.

(** What a command can raise: an exception of the book, or the IndexError
    of an index past the end of a list. *)
Inductive raised : Type :=
| Core (e : exn)
| IndexError (msg : string).

Inductive answer (A : Type) : Type :=
| Return (a : A)
| Throw (r : raised).
Arguments Return {A} a.
Arguments Throw {A} r.

(** A command: a function over the global [contacts]. *)
Definition command (A : Type) : Type := AddressBook -> AddressBook * answer A.

Definition of_result {A} (r : result A) : answer A :=
  match r with
  | Ok a => Return a
  | Raise e => Throw (Core e)
  end.

Definition newline : string := String (chr 10) "".

Section WithRepr.

(** [repr] of a string, which is how [str] shows the key of a KeyError. *)
Variable repr : string -> string.

(** The decorator [input_error]: KeyError, ValueError and IndexError
    become the text of an error line; anything else goes through. *)
Definition input_error (func : command string) : command string :=
  fun contacts =>
    match func contacts with
    | (c, Return s) => (c, Return s)
    | (c, Throw (Core (ValueError msg))) => (c, Return ("Error: " ++ msg))
    | (c, Throw (Core (KeyError key))) => (c, Return ("Error: " ++ repr key))
    | (c, Throw (IndexError msg)) => (c, Return ("Error: " ++ msg))
    | (c, Throw r) => (c, Throw r)
    end.

(** The body of [add_contact]. *)
Definition add_contact_body (name_ : string) (phone birthday_ : pyval) : command string :=
  fun contacts =>
    let done := "Contact " ++ name_ ++ " added with phone " ++ str phone in
    match on_first (name_is (lower name_)) (add_phone phone) (data contacts) with
    | Some (d, Ok _) => (set_data d contacts, Return done)
    | Some (d, Raise e) => (set_data d contacts, Throw (Core e))
    | None =>
        match Record_new name_ birthday_ None with
        | Raise e => (contacts, Throw (Core e))
        | Ok record =>
            match add_phone phone record with
            | (_, Raise e) => (contacts, Throw (Core e))
            | (record', Ok _) =>
                match add_record record' contacts with
                | (c, Ok _) => (c, Return done)
                | (c, Raise e) => (c, Throw (Core e))
                end
            end
        end
    end.

Definition add_contact (name_ : string) (phone birthday_ : pyval) : command string :=
  input_error (add_contact_body name_ phone birthday_).

(** The body of [delete_contact]; [command_] is the split command line. *)
Definition delete_contact_body (command_ : list string) : command string :=
  fun contacts =>
    match nth_error command_ 1 with
    | None => (contacts, Throw (IndexError "list index out of range"))
    | Some name_ =>
        match delete name_ contacts with
        | (c, Ok _) => (c, Return ("Contact " ++ name_ ++ " deleted"))
        | (c, Raise e) => (c, Throw (Core e))
        end
    end.

Definition delete_contact (command_ : list string) : command string :=
  input_error (delete_contact_body command_).

(** The body of the command [change_phone]: [contact.phones[0]] is read
    first, then [edit_phone] runs on the record [find] returned, in the
    dict. *)
Definition change_phone_body (name_ : string) (new_phone : pyval) : command string :=
  fun contacts =>
    let not_found := Throw (Core (ValueError ("Contact " ++ name_ ++ " not found"))) in
    match find contacts name_ with
    | None => (contacts, not_found)
    | Some contact =>
        match phones contact with
        | [] => (contacts, Throw (IndexError "list index out of range"))
        | first :: _ =>
            match on_first (name_is (lower name_))
                           (edit_phone (phone_value first) new_phone) (data contacts) with
            | Some (d, Ok _) =>
                (set_data d contacts,
                 Return ("Phone number for " ++ name_ ++ " changed to " ++ str new_phone))
            | Some (d, Raise e) => (set_data d contacts, Throw (Core e))
            | None => (contacts, not_found)
            end
        end
    end.

Definition change_phone (name_ : string) (new_phone : pyval) : command string :=
  input_error (change_phone_body name_ new_phone).

(** The body of [show_all]. *)
Definition show_all_body : command string :=
  fun contacts =>
    let page := get_page contacts (current_page contacts) in
    let result := join newline (map Record_str page) in
    (contacts,
     Return ("Page " ++ str (PyInt (current_page contacts)) ++ ":" ++ newline ++ result)).

Definition show_all : command string := input_error show_all_body.

End WithRepr.

End Commands.

(* ================================================================== *)
(** ** Definitions used to state the properties *)

(** The format the specification gives for a phone: a string of exactly
    ten characters 0-9. *)
Definition spec_phone_format (v : pyval) : bool :=
  match v with
  | PyStr s => (String.length s =? 10)%nat && all_chars is_decimal s
  | _ => false
  end.

(** What [validate_phone] lets through: [None], or a string of ten
    characters each of which [str.isdigit] accepts. *)
Definition phone_format (v : pyval) : bool :=
  match v with
  | PyNone => true
  | PyStr s => (String.length s =? 10)%nat && all_chars isdigit_char s
  | PyInt _ => false
  end.

(** A string of ten characters that [str.isdigit] accepts, not all of
    them among 0-9: the values whose handling is left open. *)
Definition non_ascii_digits (v : pyval) : bool :=
  match v with
  | PyStr s =>
      (String.length s =? 10)%nat && all_chars isdigit_char s &&
      negb (all_chars is_decimal s)
  | _ => false
  end.

Definition digit_value (c : ascii) : Z := code c - 48.

(** The pattern YYYY-MM-DD of the specification: four digits, a dash, two
    digits, a dash, two digits; with the year, month and day it writes. *)
Definition spec_ymd_fields (s : string) : option (Z * Z * Z) :=
  match s with
  | String y1 (String y2 (String y3 (String y4 (String h1
      (String m1 (String m2 (String h2 (String d1 (String d2 EmptyString))))))))) =>
      if is_decimal y1 && is_decimal y2 && is_decimal y3 && is_decimal y4 &&
         Ascii.eqb h1 "-" && is_decimal m1 && is_decimal m2 &&
         Ascii.eqb h2 "-" && is_decimal d1 && is_decimal d2
      then Some (1000 * digit_value y1 + 100 * digit_value y2 +
                 10 * digit_value y3 + digit_value y4,
                 10 * digit_value m1 + digit_value m2,
                 10 * digit_value d1 + digit_value d2)
      else None
  | _ => None
  end.

Definition spec_ymd_pattern (s : string) : bool :=
  match spec_ymd_fields s with Some _ => true | None => false end.

Definition midnight (y m d : Z) : datetime := mkDatetime y m d 0 0 0 0.

(** A birthday as the constructor leaves it: midnight of a valid date. *)
Definition birthday_ok (b : Birthday) : bool :=
  let t := birthday_value b in
  valid_date (year t) (month t) (day t) &&
  (hour t =? 0) && (minute t =? 0) && (second t =? 0) && (microsecond t =? 0).

Definition invalid_birthday : exn :=
  ValueError "Invalid birthday format. Please use YYYY-MM-DD".

(** The strings [dd] for 0 <= d <= 99 read by [match_md] as month and as
    day: the check that is run over all of them. *)
Definition md_string (e f g h : Z) : string :=
  String (digit_char e) (String (digit_char f) (String "-"
    (String (digit_char g) (String (digit_char h) "")))).

Definition md_check (e f g h : Z) : bool :=
  let m := 10 * e + f in
  let d := 10 * g + h in
  match match_md (md_string e f g h) with
  | Some (m', d', EmptyString) =>
      (m' =? m) && (d' =? d) && between 1 12 m && between 1 31 d
  | _ => negb (between 1 12 m && between 1 31 d)
  end.

Definition ten : list Z := [0; 1; 2; 3; 4; 5; 6; 7; 8; 9].

(** What [strptime] takes for a day, by the shape of the text: one digit,
    two digits, or a blank and a digit. *)
Definition lenient_day (s : string) : option Z :=
  match s with
  | String d1 EmptyString =>
      if is_decimal d1 then Some (digit_value d1) else None
  | String d1 (String d2 EmptyString) =>
      if is_decimal d2
      then if is_decimal d1 then Some (10 * digit_value d1 + digit_value d2)
           else if Ascii.eqb d1 " " then Some (digit_value d2) else None
      else None
  | _ => None
  end.

(** A month of one or two digits, a dash, and such a day. *)
Definition lenient_month_day (s : string) : option (Z * Z) :=
  match s with
  | String m1 (String c rest) =>
      if is_decimal m1
      then if Ascii.eqb c "-"
           then match lenient_day rest with
                | Some d => Some (digit_value m1, d)
                | None => None
                end
           else if is_decimal c
           then match rest with
                | String h rest' =>
                    if Ascii.eqb h "-"
                    then match lenient_day rest' with
                         | Some d => Some (10 * digit_value m1 + digit_value c, d)
                         | None => None
                         end
                    else None
                | EmptyString => None
                end
           else None
      else None
  | _ => None
  end.

(** The strings [Birthday] reads as a year, a month and a day: four
    digits, a dash, a month of one or two digits, a dash, and a day of one
    or two digits or of a blank and a digit. *)
Definition lenient_ymd_fields (s : string) : option (Z * Z * Z) :=
  match s with
  | String y1 (String y2 (String y3 (String y4 (String h rest)))) =>
      if is_decimal y1 && is_decimal y2 && is_decimal y3 && is_decimal y4 &&
         Ascii.eqb h "-"
      then match lenient_month_day rest with
           | Some (m, d) =>
               Some (1000 * digit_value y1 + 100 * digit_value y2 +
                     10 * digit_value y3 + digit_value y4, m, d)
           | None => None
           end
      else None
  | _ => None
  end.

(** The month and day texts of those shapes, over digits given by value,
    and the check that [match_md] reads each of them in full whenever month
    and day are in range. *)
Inductive month_text : Type :=
| Month1 (e : Z)
| Month2 (e f : Z).

Inductive day_text : Type :=
| Day1 (g : Z)
| Day2 (g h : Z)
| DayBlank (g : Z).

Definition month_string (mt : month_text) (rest : string) : string :=
  match mt with
  | Month1 e => String (digit_char e) rest
  | Month2 e f => String (digit_char e) (String (digit_char f) rest)
  end.

Definition month_number (mt : month_text) : Z :=
  match mt with
  | Month1 e => e
  | Month2 e f => 10 * e + f
  end.

Definition day_string (dt : day_text) : string :=
  match dt with
  | Day1 g => String (digit_char g) ""
  | Day2 g h => String (digit_char g) (String (digit_char h) "")
  | DayBlank g => String " " (String (digit_char g) "")
  end.

Definition day_number (dt : day_text) : Z :=
  match dt with
  | Day1 g => g
  | Day2 g h => 10 * g + h
  | DayBlank g => g
  end.

Definition month_texts : list month_text :=
  map Month1 ten ++ flat_map (fun e => map (Month2 e) ten) ten.

Definition day_texts : list day_text :=
  map Day1 ten ++ flat_map (fun g => map (Day2 g) ten) ten ++ map DayBlank ten.

Definition md_text_check (mt : month_text) (dt : day_text) : bool :=
  let m := month_number mt in
  let d := day_number dt in
  if between 1 12 m && between 1 31 d
  then match match_md (month_string mt (String "-" (day_string dt))) with
       | Some (m', d', EmptyString) => (m' =? m) && (d' =? d)
       | _ => false
       end
  else true.

(** The behaviour the specification gives [getFirstN]: a plain slice of
    the first [n] display strings. *)
Definition spec_getFirstN (self : AddressBook) (n : Z) : list string :=
  firstn (Z.to_nat n) (map Record_str (values self)).

(** Two contacts, and the book that holds them in that order. *)
Definition alice : record :=
  mkRecord (mkName "Alice") (Some (mkBirthday (midnight 1990 6 15)))
           [mkPhone (PyStr "1234567890")].

Definition bob : record :=
  mkRecord (mkName "Bob") None [mkPhone (PyStr "5552223333")].

Definition alice_and_bob : AddressBook :=
  fst (add_record bob (fst (add_record alice AddressBook_new))).

(** The lowered names of the records of a dict, in order. *)
Definition lowered_names (d : dict) : list string :=
  map (fun e => lower (name_value (name (snd e)))) d.

Fixpoint distinct (l : list string) : bool :=
  match l with
  | [] => true
  | x :: l' => negb (existsb (String.eqb x) l') && distinct l'
  end.

(** At most one record per name, names compared without case. *)
Definition one_per_name (self : AddressBook) : bool :=
  distinct (lowered_names (data self)).

(** Every record sits under its own name. *)
Definition keyed_by_name (d : dict) : bool :=
  forallb (fun e => (fst e =? name_value (name (snd e)))%string) d.

Definition book_inv (self : AddressBook) : bool :=
  keyed_by_name (data self) && one_per_name self.

(** A file that holds at most one entry per name, names compared without
    case; no file at all is such a file. *)
Definition file_one_per_name (file : option (list json_entry)) : bool :=
  match file with
  | None => true
  | Some entries => distinct (map (fun e => lower (j_name e)) entries)
  end.

(** The operations on a book and on the file it is saved to. *)
Inductive op : Type :=
| OpAdd (r : record)
| OpDelete (name_ : string)
| OpChange (name_ : string) (old_phone new_phone : pyval)
| OpSave
| OpLoad.

(** One operation on the book and the file; an operation that raises
    leaves the state it raised in. *)
Definition step (st : AddressBook * option (list json_entry)) (o : op)
  : AddressBook * option (list json_entry) :=
  let (book, file) := st in
  match o with
  | OpAdd r => (fst (add_record r book), file)
  | OpDelete n => (fst (delete n book), file)
  | OpChange n old_phone new_phone => (fst (change_phone n old_phone new_phone book), file)
  | OpSave => (book, Some (save_to_file book))
  | OpLoad => (fst (load_from_file file book), file)
  end.

Definition run (ops : list op) (st : AddressBook * option (list json_entry))
  : AddressBook * option (list json_entry) :=
  fold_left step ops st.

(** A file with one entry for Alice and one for alice. *)
Definition two_alices : list json_entry :=
  [ mkEntry "Alice" PyNone (Some [PyStr "1234567890"]);
    mkEntry "alice" PyNone (Some [PyStr "0987654321"]) ].

(** A phone that holds a number, not [None]. *)
Definition phone_is_number (p : Phone) : bool :=
  isinstance_str (phone_value p) && phone_format (phone_value p).

(** A record whose phones hold numbers and whose birthday, if any, is as
    the constructor leaves it and of the year 1000 or later. *)
Definition record_ok (r : record) : bool :=
  forallb phone_is_number (phones r) &&
  match birthday r with
  | Some b => birthday_ok b && (1000 <=? year (birthday_value b))
  | None => true
  end.

(** A book whose dict has distinct keys, each the name of its record, and
    holds such records only: what a book is, but for the phones that hold
    [None] and the birthdays before the year 1000. *)
Definition no_none_phone (self : AddressBook) : bool :=
  keyed_by_name (data self) && distinct (map fst (data self)) &&
  forallb (fun e => record_ok (snd e)) (data self).

(** The same, for a book that keeps one record per name. *)
Definition book_ok (self : AddressBook) : bool :=
  book_inv self && forallb (fun e => record_ok (snd e)) (data self).

(** A record with a phone that holds [None], and the book that holds it. *)
Definition ann : record := mkRecord (mkName "Ann") None [mkPhone PyNone].

Definition book_of_ann : AddressBook := fst (add_record ann AddressBook_new).

(** A record with a birthday in the year 999, and the book that holds it. *)
Definition old_tom : record :=
  mkRecord (mkName "Tom") (Some (mkBirthday (midnight 999 1 1)))
           [mkPhone (PyStr "1234567890")].

Definition book_of_old_tom : AddressBook := fst (add_record old_tom AddressBook_new).

(** An operation that brings no [None] phone and no birthday before the
    year 1000: a record added is a [record_ok] one, a phone is changed to a
    string. *)
Definition op_ok (o : op) : bool :=
  match o with
  | OpAdd r => record_ok r
  | OpChange _ _ new_phone => isinstance_str new_phone
  | _ => true
  end.


(** A datetime that [datetime] can hold: a valid date and a time of day. *)
Definition valid_datetime (t : datetime) : bool :=
  valid_date (year t) (month t) (day t) &&
  between 0 23 (hour t) && between 0 59 (minute t) && between 0 59 (second t) &&
  between 0 999999 (microsecond t).

Definition leap_day (y : Z) : Z := if is_leap y then 1 else 0.

(** Days of a year that is not a leap year before the first of month [m]. *)
Definition days_before_month_common (m : Z) : Z :=
  nth (Z.to_nat m) [0; 0; 31; 59; 90; 120; 151; 181; 212; 243; 273; 304; 334] 0.

(** A record as the constructor and the methods leave it: every phone
    holds [None] or a number, the birthday, if any, is midnight of a valid
    date. *)
Definition record_valid (r : record) : bool :=
  forallb (fun p => phone_format (phone_value p)) (phones r) &&
  match birthday r with
  | Some b => birthday_ok b
  | None => true
  end.

Definition phones_given (phones_ : option (list pyval)) : list pyval :=
  match phones_ with
  | Some l => l
  | None => []
  end.

(** [Record(...)] on one entry of the file, and the entries it accepts: an
    empty birthday or one [Birthday] accepts, and phones [Phone] accepts. *)
Definition entry_record (e : json_entry) : result record :=
  Record_new (j_name e) (j_birthday e) (j_phones e).

Definition entry_ok (e : json_entry) : bool :=
  (negb (truthy (j_birthday e)) || is_ok (Birthday_new (j_birthday e))) &&
  forallb phone_format (phones_given (j_phones e)).

(* ================================================================== *)
(** * Properties *)

Open Scope list_scope.

(** ** Phone: what an assignment accepts *)

Lemma isdigit_all_chars (s : string) :
  s <> "" -> isdigit s = all_chars isdigit_char s.
Proof. destruct s; [congruence | reflexivity]. Qed.

Lemma len_eqb (s : string) (n : nat) :
  (len s =? Z.of_nat n) = (String.length s =? n)%nat.
Proof.
  unfold len. destruct (Nat.eqb_spec (String.length s) n) as [->|H].
  - apply Z.eqb_refl.
  - apply Z.eqb_neq. lia.
Qed.

Lemma validate_phone_format (v : pyval) :
  validate_phone v =
  if phone_format v then Ok tt else Raise (ValueError "Invalid phone number format").
Proof.
  destruct v as [|s|n]; try reflexivity.
  unfold validate_phone, phone_format; cbn [is_None isinstance_str str negb andb orb].
  change 10 with (Z.of_nat 10). rewrite len_eqb.
  destruct (Nat.eqb_spec (String.length s) 10) as [Hl|Hl]; cbn [andb negb].
  - rewrite isdigit_all_chars by (destruct s; [discriminate | congruence]).
    now destruct (all_chars isdigit_char s).
  - reflexivity.
Qed.

Lemma is_decimal_isdigit (c : ascii) : is_decimal c = true -> isdigit_char c = true.
Proof. unfold is_decimal, isdigit_char. intros ->. reflexivity. Qed.

Lemma all_chars_impl (p q : ascii -> bool) (s : string) :
  (forall c, p c = true -> q c = true) ->
  all_chars p s = true -> all_chars q s = true.
Proof.
  intros Hpq. induction s as [|c s IH]; cbn; [easy|].
  intros [Hc Hs]%andb_prop. now rewrite (Hpq _ Hc), IH.
Qed.

(** C3, as stated, fails: assigning [None] to a phone that holds a valid
    number succeeds and replaces the number, although [None] is not a string
    of ten digits. *)
Lemma phone_assignment_accepts_None :
  spec_phone_format PyNone = false /\
  Phone_set_value PyNone (mkPhone (PyStr "0123456789")) = (mkPhone PyNone, Ok tt) /\
  Phone_new PyNone = Ok (mkPhone PyNone).
Proof. repeat split. Qed.

Lemma Phone_set_value_format (v : pyval) (p : Phone) :
  Phone_set_value v p =
  if phone_format v then (mkPhone v, Ok tt)
  else (p, Raise (ValueError "Invalid phone number format")).
Proof.
  unfold Phone_set_value, bind, pure, put.
  rewrite validate_phone_format. now destruct (phone_format v).
Qed.

Lemma Phone_new_format (v : pyval) :
  Phone_new v =
  if phone_format v then Ok (mkPhone v)
  else Raise (ValueError "Invalid phone number format").
Proof.
  unfold Phone_new. rewrite Phone_set_value_format. now destruct (phone_format v).
Qed.

Lemma phone_format_ascii (v : pyval) :
  non_ascii_digits v = false -> phone_format v = is_None v || spec_phone_format v.
Proof.
  destruct v as [|s|n]; try reflexivity. cbn.
  destruct (String.length s =? 10)%nat; cbn; [|reflexivity].
  destruct (all_chars is_decimal s) eqn:E; cbn.
  - intros _. apply (all_chars_impl _ _ _ is_decimal_isdigit E).
  - now rewrite andb_true_r.
Qed.

(** C3, amended: for every value other than a string of ten digit
    characters that are not all among 0-9 (left open), an assignment to a
    phone, by the setter or by the constructor through it, succeeds
    exactly when the value is [None] or a string of exactly ten characters
    0-9.  It then stores the value as given, and the phone displays the
    text of that value, a string as itself; otherwise it raises
    ValueError("Invalid phone number format") before anything is stored,
    and the phone holds and displays what it did. *)
Theorem phone_assignment (v : pyval) (p : Phone) :
  non_ascii_digits v = false ->
  let accepted := is_None v || spec_phone_format v in
  Phone_set_value v p =
    (if accepted then (mkPhone v, Ok tt)
     else (p, Raise (ValueError "Invalid phone number format"))) /\
  Phone_new v =
    (if accepted then Ok (mkPhone v)
     else Raise (ValueError "Invalid phone number format")) /\
  Phone_display (fst (Phone_set_value v p)) =
    (if accepted then str v else Phone_display p).
Proof.
  intros H accepted. subst accepted.
  rewrite Phone_set_value_format, Phone_new_format, (phone_format_ascii v H).
  now destruct (is_None v || spec_phone_format v).
Qed.

Lemma phone_assignment_witness :
  Phone_set_value (PyStr "0123456789") (mkPhone PyNone) =
    (mkPhone (PyStr "0123456789"), Ok tt) /\
  Phone_set_value (PyStr "12345") (mkPhone (PyStr "0123456789")) =
    (mkPhone (PyStr "0123456789"), Raise (ValueError "Invalid phone number format")).
Proof.
  split.
  - exact (proj1 (phone_assignment (PyStr "0123456789") (mkPhone PyNone) eq_refl)).
  - exact (proj1 (phone_assignment (PyStr "12345") (mkPhone (PyStr "0123456789")) eq_refl)).
Defined.

(** ** Birthday: what the constructor accepts and what it displays *)

Lemma in_ten (d : Z) : 0 <= d <= 9 -> In d ten.
Proof.
  intros H. unfold ten. cbn. lia.
Qed.

Lemma md_check_all :
  forallb (fun e => forallb (fun f => forallb (fun g => forallb (fun h =>
    md_check e f g h) ten) ten) ten) ten = true.
Proof. vm_compute. reflexivity. Qed.

Lemma md_check_digits (e f g h : Z) :
  0 <= e <= 9 -> 0 <= f <= 9 -> 0 <= g <= 9 -> 0 <= h <= 9 ->
  md_check e f g h = true.
Proof.
  intros He Hf Hg Hh.
  pose proof md_check_all as H.
  rewrite forallb_forall in H. specialize (H e (in_ten e He)).
  rewrite forallb_forall in H. specialize (H f (in_ten f Hf)).
  rewrite forallb_forall in H. specialize (H g (in_ten g Hg)).
  rewrite forallb_forall in H. exact (H h (in_ten h Hh)).
Qed.

Lemma code_range (c : ascii) : 0 <= code c <= 255.
Proof.
  unfold code. pose proof (N_ascii_bounded c). lia.
Qed.

Lemma chr_code (c : ascii) : chr (code c) = c.
Proof.
  unfold chr, code. rewrite N2Z.id. apply ascii_N_embedding.
Qed.

Lemma code_chr (n : Z) : 0 <= n <= 255 -> code (chr n) = n.
Proof.
  intros H. unfold chr, code. rewrite N_ascii_embedding by lia. lia.
Qed.

Lemma digit_value_range (c : ascii) :
  is_decimal c = true -> 0 <= digit_value c <= 9.
Proof.
  unfold is_decimal, between, digit_value. intros [H1 H2]%andb_prop. lia.
Qed.

Lemma digit_char_value (c : ascii) :
  is_decimal c = true -> digit_char (digit_value c) = c.
Proof.
  intros _. unfold digit_char, digit_value.
  replace (48 + (code c - 48)) with (code c) by lia. apply chr_code.
Qed.

Lemma digit_char_decimal (d : Z) :
  0 <= d <= 9 -> is_decimal (digit_char d) = true /\ digit_value (digit_char d) = d.
Proof.
  intros H. unfold is_decimal, digit_value, digit_char.
  rewrite code_chr by lia. unfold between. split; lia.
Qed.

Lemma digit_in_decimal (c : ascii) (r : string) :
  is_decimal c = true -> digit_in 0 9 (String c r) = Some (digit_value c, r).
Proof.
  intros H. pose proof (digit_value_range c H) as Hr. unfold digit_in.
  rewrite H. fold (digit_value c). unfold between.
  replace ((0 <=? digit_value c) && (digit_value c <=? 9)) with true
    by (symmetry; apply andb_true_intro; split; lia).
  reflexivity.
Qed.

Lemma year4_decimal (a b c d : ascii) (r : string) :
  is_decimal a = true -> is_decimal b = true ->
  is_decimal c = true -> is_decimal d = true ->
  year4 (String a (String b (String c (String d r)))) =
  Some (1000 * digit_value a + 100 * digit_value b + 10 * digit_value c + digit_value d, r).
Proof.
  intros Ha Hb Hc Hd. unfold year4, two.
  rewrite (digit_in_decimal a) by assumption.
  rewrite (digit_in_decimal b) by assumption.
  rewrite (digit_in_decimal c) by assumption.
  rewrite (digit_in_decimal d) by assumption.
  do 2 f_equal. lia.
Qed.

Lemma datetime_ymd_cases (y m d : Z) :
  (valid_date y m d = true /\ datetime_ymd y m d = Ok (midnight y m d)) \/
  (valid_date y m d = false /\ exists msg, datetime_ymd y m d = Raise (ValueError msg)).
Proof.
  unfold datetime_ymd, valid_date.
  destruct (between 1 9999 y), (between 1 12 m), (between 1 (days_in_month y m) d);
    cbn; eauto.
Qed.

Lemma days_in_month_le_31 (y m : Z) : days_in_month y m <= 31.
Proof.
  unfold days_in_month.
  destruct (m =? 2); [destruct (is_leap y); lia|].
  destruct ((m =? 4) || (m =? 6) || (m =? 9) || (m =? 11)); lia.
Qed.

Lemma valid_date_md (y m d : Z) :
  valid_date y m d = true -> between 1 12 m && between 1 31 d = true.
Proof.
  unfold valid_date, between. pose proof (days_in_month_le_31 y m) as Hle.
  intros H. repeat (apply andb_prop in H; destruct H as [H ?]).
  apply andb_true_intro; split; apply andb_true_intro; split; lia.
Qed.

(** [strptime] on a string of the padded form, by the digits it holds. *)
Lemma strptime_padded (y1 y2 y3 y4 m1 m2 d1 d2 : ascii) :
  is_decimal y1 = true -> is_decimal y2 = true ->
  is_decimal y3 = true -> is_decimal y4 = true ->
  is_decimal m1 = true -> is_decimal m2 = true ->
  is_decimal d1 = true -> is_decimal d2 = true ->
  let s := String y1 (String y2 (String y3 (String y4 (String "-"
             (String m1 (String m2 (String "-" (String d1 (String d2 ""))))))))) in
  let y := 1000 * digit_value y1 + 100 * digit_value y2 +
           10 * digit_value y3 + digit_value y4 in
  let m := 10 * digit_value m1 + digit_value m2 in
  let d := 10 * digit_value d1 + digit_value d2 in
  (valid_date y m d = true /\ strptime_ymd (PyStr s) = Ok (midnight y m d)) \/
  (valid_date y m d = false /\ exists msg, strptime_ymd (PyStr s) = Raise (ValueError msg)).
Proof.
  intros Hy1 Hy2 Hy3 Hy4 Hm1 Hm2 Hd1 Hd2 s y m d.
  pose proof (md_check_digits _ _ _ _ (digit_value_range _ Hm1) (digit_value_range _ Hm2)
                (digit_value_range _ Hd1) (digit_value_range _ Hd2)) as Hck.
  unfold md_check, md_string in Hck. rewrite !digit_char_value in Hck by assumption.
  fold m d in Hck.
  unfold strptime_ymd, match_ymd, s.
  rewrite year4_decimal by assumption. fold y. cbn [char_is Ascii.eqb Bool.eqb].
  destruct (match_md _) as [[[m' d'] rest]|].
  - destruct rest as [|c rest].
    + repeat (apply andb_prop in Hck; destruct Hck as [Hck ?]).
      apply Z.eqb_eq in Hck. subst m'.
      match goal with H : (d' =? d) = true |- _ => apply Z.eqb_eq in H; subst d' end.
      cbn [String.eqb negb]. apply datetime_ymd_cases.
    + right. split.
      * destruct (valid_date y m d) eqn:E; [|reflexivity].
        apply valid_date_md in E. rewrite E in Hck. discriminate.
      * cbn. eauto.
  - right. split.
    + destruct (valid_date y m d) eqn:E; [|reflexivity].
      apply valid_date_md in E. rewrite E in Hck. discriminate.
    + eauto.
Qed.

Lemma spec_ymd_fields_inv (s : string) (y m d : Z) :
  spec_ymd_fields s = Some (y, m, d) ->
  exists y1 y2 y3 y4 m1 m2 d1 d2,
    s = String y1 (String y2 (String y3 (String y4 (String "-"
          (String m1 (String m2 (String "-" (String d1 (String d2 ""))))))))) /\
    (is_decimal y1 = true /\ is_decimal y2 = true /\
     is_decimal y3 = true /\ is_decimal y4 = true) /\
    (is_decimal m1 = true /\ is_decimal m2 = true) /\
    (is_decimal d1 = true /\ is_decimal d2 = true) /\
    y = 1000 * digit_value y1 + 100 * digit_value y2 + 10 * digit_value y3 + digit_value y4 /\
    m = 10 * digit_value m1 + digit_value m2 /\
    d = 10 * digit_value d1 + digit_value d2.
Proof.
  unfold spec_ymd_fields.
  do 10 (destruct s as [|? s]; [discriminate|]).
  destruct s; [|discriminate].
  match goal with |- (if ?c then _ else _) = _ -> _ => destruct c eqn:E end;
    [|discriminate].
  intros [= <- <- <-].
  rewrite !andb_true_iff in E.
  destruct E as (((((((((Y1 & Y2) & Y3) & Y4) & H1) & M1) & M2) & H2) & D1) & D2).
  apply Ascii.eqb_eq in H1, H2. subst.
  do 8 eexists. repeat split; try assumption; reflexivity.
Qed.

Lemma digit_quotients (y : Z) :
  0 <= y <= 9999 ->
  0 <= y / 1000 <= 9 /\ 0 <= y / 100 mod 10 <= 9 /\
  0 <= y mod 100 / 10 <= 9 /\ 0 <= y mod 100 mod 10 <= 9 /\
  1000 * (y / 1000) + 100 * (y / 100 mod 10) +
  10 * (y mod 100 / 10) + y mod 100 mod 10 = y.
Proof. intros H. Z.to_euclidean_division_equations. lia. Qed.

Lemma two_digit_quotients (n : Z) :
  0 <= n <= 99 ->
  0 <= n / 10 <= 9 /\ 0 <= n mod 10 <= 9 /\ 10 * (n / 10) + n mod 10 = n.
Proof. intros H. Z.to_euclidean_division_equations. lia. Qed.

Lemma valid_date_bounds (y m d : Z) :
  valid_date y m d = true -> 1 <= y <= 9999 /\ 1 <= m <= 12 /\ 1 <= d <= 31.
Proof.
  unfold valid_date, between. pose proof (days_in_month_le_31 y m) as Hle.
  intros H. repeat (apply andb_prop in H; destruct H as [H ?]). lia.
Qed.

Lemma year_str_pad4 (y : Z) : 1000 <= y -> year_str y = pad4 y.
Proof.
  intros H. unfold year_str.
  replace (y <? 10) with false by (symmetry; apply Z.ltb_ge; lia).
  replace (y <? 100) with false by (symmetry; apply Z.ltb_ge; lia).
  now replace (y <? 1000) with false by (symmetry; apply Z.ltb_ge; lia).
Qed.

(** What [strftime] writes for a valid date of the year 1000 or later is
    of the padded form and reads back as that date. *)
Lemma strftime_fields (y m d : Z) :
  valid_date y m d = true -> 1000 <= y ->
  spec_ymd_fields (strftime_ymd (midnight y m d)) = Some (y, m, d).
Proof.
  intros Hv Hy1000. apply valid_date_bounds in Hv. destruct Hv as (Hy & Hm & Hd).
  destruct (digit_quotients y) as (Q1 & Q2 & Q3 & Q4 & Qy); [lia|].
  destruct (two_digit_quotients m) as (M1 & M2 & Qm); [lia|].
  destruct (two_digit_quotients d) as (D1 & D2 & Qd); [lia|].
  unfold strftime_ymd, midnight. cbn [year month day].
  rewrite year_str_pad4 by exact Hy1000.
  unfold pad4, pad2, spec_ymd_fields. cbn [append].
  repeat match goal with
         | |- context [is_decimal (digit_char ?q)] =>
             rewrite (proj1 (digit_char_decimal q ltac:(assumption)))
         | |- context [digit_value (digit_char ?q)] =>
             rewrite (proj2 (digit_char_decimal q ltac:(assumption)))
         end.
  cbn [andb Ascii.eqb Bool.eqb]. rewrite Qy, Qm, Qd. reflexivity.
Qed.

Lemma number_digits (a b c d : Z) :
  0 <= a <= 9 -> 0 <= b <= 9 -> 0 <= c <= 9 -> 0 <= d <= 9 ->
  let y := 1000 * a + 100 * b + 10 * c + d in
  y / 1000 = a /\ y / 100 mod 10 = b /\ y mod 100 / 10 = c /\ y mod 100 mod 10 = d.
Proof. intros Ha Hb Hc Hd y. subst y. Z.to_euclidean_division_equations. lia. Qed.

Lemma pair_digits (c d : Z) :
  0 <= c <= 9 -> 0 <= d <= 9 ->
  (10 * c + d) / 10 = c /\ (10 * c + d) mod 10 = d.
Proof. intros Hc Hd. Z.to_euclidean_division_equations. lia. Qed.

(** What [strftime] writes for the fields of a padded string of the year
    1000 or later is that string. *)
Lemma strftime_of_fields (s : string) (y m d : Z) :
  spec_ymd_fields s = Some (y, m, d) -> 1000 <= y ->
  strftime_ymd (midnight y m d) = s.
Proof.
  intros H Hy1000. apply spec_ymd_fields_inv in H.
  destruct H as (y1 & y2 & y3 & y4 & m1 & m2 & d1 & d2 & -> &
                 (Y1 & Y2 & Y3 & Y4) & (M1 & M2) & (D1 & D2) & Ey & -> & ->).
  pose proof (digit_value_range _ Y1). pose proof (digit_value_range _ Y2).
  pose proof (digit_value_range _ Y3). pose proof (digit_value_range _ Y4).
  pose proof (digit_value_range _ M1). pose proof (digit_value_range _ M2).
  pose proof (digit_value_range _ D1). pose proof (digit_value_range _ D2).
  destruct (number_digits _ _ _ _ H H0 H1 H2) as (E1 & E2 & E3 & E4).
  destruct (pair_digits _ _ H3 H4) as (E5 & E6).
  destruct (pair_digits _ _ H5 H6) as (E7 & E8).
  unfold strftime_ymd, midnight. cbn [year month day].
  rewrite year_str_pad4 by exact Hy1000. subst y.
  unfold pad4, pad2. cbn [append].
  rewrite E1, E2, E3, E4, E5, E6, E7, E8.
  rewrite !digit_char_value by assumption. reflexivity.
Qed.

Lemma strptime_ok_inv (s : string) (t : datetime) :
  strptime_ymd (PyStr s) = Ok t ->
  t = midnight (year t) (month t) (day t) /\
  valid_date (year t) (month t) (day t) = true.
Proof.
  unfold strptime_ymd.
  destruct (match_ymd s) as [[[[y m] d] rest]|]; [|discriminate].
  destruct (negb (rest =? "")%string); [discriminate|].
  destruct (datetime_ymd_cases y m d) as [[Hv ->]|[_ [msg ->]]]; [|discriminate].
  intros [= <-]. split; [reflexivity | exact Hv].
Qed.

(** [Birthday(s)] by what [strptime] makes of [s]. *)
Lemma Birthday_new_strptime (s : string) :
  Birthday_new (PyStr s) =
  match strptime_ymd (PyStr s) with
  | Ok t => Ok (mkBirthday t)
  | Raise (ValueError _) => Raise invalid_birthday
  | Raise e => Raise e
  end.
Proof.
  unfold Birthday_new, Birthday_set_value, validate_birthday, bind, pure, put.
  cbn [is_None negb].
  destruct (strptime_ymd (PyStr s)) as [t|[msg| | |]]; reflexivity.
Qed.

Lemma strptime_str_cases (s : string) :
  (exists t, strptime_ymd (PyStr s) = Ok t) \/
  (exists msg, strptime_ymd (PyStr s) = Raise (ValueError msg)).
Proof.
  unfold strptime_ymd.
  destruct (match_ymd s) as [[[[y m] d] rest]|]; [|eauto].
  destruct (negb (rest =? "")%string); [eauto|].
  destruct (datetime_ymd_cases y m d) as [[_ ->]|[_ [msg ->]]]; eauto.
Qed.

Lemma Birthday_new_padded (s : string) (y m d : Z) :
  spec_ymd_fields s = Some (y, m, d) ->
  Birthday_new (PyStr s) =
  if valid_date y m d then Ok (mkBirthday (midnight y m d)) else Raise invalid_birthday.
Proof.
  intros H. apply spec_ymd_fields_inv in H.
  destruct H as (y1 & y2 & y3 & y4 & m1 & m2 & d1 & d2 & -> &
                 (Y1 & Y2 & Y3 & Y4) & (M1 & M2) & (D1 & D2) & -> & -> & ->).
  rewrite Birthday_new_strptime.
  destruct (strptime_padded y1 y2 y3 y4 m1 m2 d1 d2 Y1 Y2 Y3 Y4 M1 M2 D1 D2)
    as [[-> ->]|[-> [msg ->]]]; reflexivity.
Qed.

(** *** The strings [strptime] reads, by their shape *)

Lemma first_alt_some {A} (alts : list alt) (s : string) (k : Z -> string -> option A) (x : A) :
  first_alt alts s k = Some x ->
  exists a v r, In a alts /\ a s = Some (v, r) /\ k v r = Some x.
Proof.
  induction alts as [|a alts IH]; cbn [first_alt]; [discriminate|].
  destruct (a s) as [[v r]|] eqn:Ea.
  - destruct (k v r) as [y|] eqn:Ek.
    + intros [= <-]. exists a, v, r. repeat split; [now left | exact Ea | exact Ek].
    + intros H. destruct (IH H) as (a' & v' & r' & Hin & H1 & H2).
      exists a', v', r'. repeat split; [now right | exact H1 | exact H2].
  - intros H. destruct (IH H) as (a' & v' & r' & Hin & H1 & H2).
    exists a', v', r'. repeat split; [now right | exact H1 | exact H2].
Qed.

Lemma digit_in_inv (lo hi : Z) (s r : string) (v : Z) :
  digit_in lo hi s = Some (v, r) ->
  exists c, s = String c r /\ is_decimal c = true /\ v = digit_value c.
Proof.
  unfold digit_in. destruct s as [|c s]; [discriminate|].
  destruct (is_decimal c) eqn:Ec; cbn [andb]; [|discriminate].
  destruct (between lo hi (code c - 48)); [|discriminate].
  intros [= <- <-]. now exists c.
Qed.

Lemma two_digit_in_inv (l1 h1 l2 h2 : Z) (s r : string) (v : Z) :
  two (digit_in l1 h1) (digit_in l2 h2) s = Some (v, r) ->
  exists c1 c2, s = String c1 (String c2 r) /\
                is_decimal c1 = true /\ is_decimal c2 = true /\
                v = 10 * digit_value c1 + digit_value c2.
Proof.
  unfold two. destruct (digit_in l1 h1 s) as [[x r1]|] eqn:E1; [|discriminate].
  destruct (digit_in l2 h2 r1) as [[y r2]|] eqn:E2; [|discriminate].
  intros [= <- <-].
  apply digit_in_inv in E1, E2.
  destruct E1 as (c1 & -> & D1 & ->). destruct E2 as (c2 & -> & D2 & ->).
  now exists c1, c2.
Qed.

Lemma decimal_not_dash (c : ascii) : is_decimal c = true -> Ascii.eqb c "-" = false.
Proof.
  intros H. destruct (Ascii.eqb_spec c "-") as [->|]; [discriminate H | reflexivity].
Qed.

Lemma day_alt_sound (a : alt) (s : string) (d : Z) :
  In a d_alts -> a s = Some (d, "") -> lenient_day s = Some d.
Proof.
  unfold d_alts. intros [<-|[<-|[<-|[<-|[<-|[]]]]]] H.
  - apply two_digit_in_inv in H. destruct H as (c1 & c2 & -> & D1 & D2 & ->).
    cbn [lenient_day]. now rewrite D1, D2.
  - apply two_digit_in_inv in H. destruct H as (c1 & c2 & -> & D1 & D2 & ->).
    cbn [lenient_day]. now rewrite D1, D2.
  - apply two_digit_in_inv in H. destruct H as (c1 & c2 & -> & D1 & D2 & ->).
    cbn [lenient_day]. now rewrite D1, D2.
  - apply digit_in_inv in H. destruct H as (c & -> & D & ->).
    cbn [lenient_day]. now rewrite D.
  - unfold blank_then, char_is in H. destruct s as [|b s]; [discriminate|].
    destruct (Ascii.eqb_spec b " ") as [->|]; [|discriminate].
    apply digit_in_inv in H. destruct H as (c & -> & D & ->).
    cbn [lenient_day]. rewrite D. reflexivity.
Qed.

Lemma month_alt_sound (a : alt) (s s3 s4 : string) (m : Z) :
  In a m_alts -> a s = Some (m, s3) -> char_is "-" s3 = Some s4 ->
  lenient_month_day s =
  match lenient_day s4 with
  | Some d => Some (m, d)
  | None => None
  end.
Proof.
  intros Hin H Hdash.
  assert (Es3 : s3 = String "-" s4).
  { unfold char_is in Hdash. destruct s3 as [|h s3]; [discriminate|].
    destruct (Ascii.eqb_spec h "-") as [->|]; [|discriminate]. now injection Hdash as ->. }
  subst s3. unfold m_alts in Hin. destruct Hin as [<-|[<-|[<-|[]]]].
  - apply two_digit_in_inv in H. destruct H as (c1 & c2 & -> & D1 & D2 & ->).
    cbn [lenient_month_day]. rewrite D1, D2, (decimal_not_dash c2 D2). reflexivity.
  - apply two_digit_in_inv in H. destruct H as (c1 & c2 & -> & D1 & D2 & ->).
    cbn [lenient_month_day]. rewrite D1, D2, (decimal_not_dash c2 D2). reflexivity.
  - apply digit_in_inv in H. destruct H as (c & -> & D & ->).
    cbn [lenient_month_day]. rewrite D. reflexivity.
Qed.

Lemma match_md_sound (s : string) (m d : Z) :
  match_md s = Some (m, d, "") -> lenient_month_day s = Some (m, d).
Proof.
  unfold match_md. intros H. apply first_alt_some in H.
  destruct H as (a & m' & s3 & Hin & Ha & Hk).
  destruct (char_is "-" s3) as [s4|] eqn:Hdash; [|discriminate].
  apply first_alt_some in Hk. destruct Hk as (a' & d' & s5 & Hin' & Ha' & Hk).
  injection Hk as -> -> ->.
  rewrite (month_alt_sound a s s3 s4 m Hin Ha Hdash).
  now rewrite (day_alt_sound a' s4 d Hin' Ha').
Qed.

Lemma year4_inv (s r : string) (y : Z) :
  year4 s = Some (y, r) ->
  exists y1 y2 y3 y4,
    s = String y1 (String y2 (String y3 (String y4 r))) /\
    is_decimal y1 && is_decimal y2 && is_decimal y3 && is_decimal y4 = true /\
    y = 1000 * digit_value y1 + 100 * digit_value y2 + 10 * digit_value y3 + digit_value y4.
Proof.
  unfold year4.
  destruct (two (digit_in 0 9) (digit_in 0 9) s) as [[hi r1]|] eqn:E1; [|discriminate].
  destruct (two (digit_in 0 9) (digit_in 0 9) r1) as [[lo r2]|] eqn:E2; [|discriminate].
  intros H. assert (Hy : y = 100 * hi + lo) by congruence.
  assert (Hr : r = r2) by congruence. subst y r. clear H.
  apply two_digit_in_inv in E1, E2.
  destruct E1 as (y1 & y2 & -> & D1 & D2 & ->).
  destruct E2 as (y3 & y4 & -> & D3 & D4 & ->).
  exists y1, y2, y3, y4. rewrite D1, D2, D3, D4.
  split; [reflexivity|]. split; [reflexivity|]. ring.
Qed.

Lemma match_ymd_sound (s : string) (y m d : Z) :
  match_ymd s = Some (y, m, d, "") -> lenient_ymd_fields s = Some (y, m, d).
Proof.
  unfold match_ymd.
  destruct (year4 s) as [[y' s1]|] eqn:Ey; [|discriminate].
  destruct (char_is "-" s1) as [s2|] eqn:Hdash; [|discriminate].
  destruct (match_md s2) as [[[m' d'] rest]|] eqn:Emd; [|discriminate].
  intros [= -> -> -> ->].
  apply year4_inv in Ey. destruct Ey as (y1 & y2 & y3 & y4 & -> & Hdec & ->).
  unfold char_is in Hdash. destruct s1 as [|h s1]; [discriminate|].
  destruct (Ascii.eqb h "-") eqn:Eh; [|discriminate]. injection Hdash as ->.
  cbn [lenient_ymd_fields]. rewrite Hdec, Eh. cbn [andb].
  now rewrite (match_md_sound s2 m d Emd).
Qed.

Lemma md_text_check_all :
  forallb (fun mt => forallb (md_text_check mt) day_texts) month_texts = true.
Proof. vm_compute. reflexivity. Qed.

Lemma lenient_day_inv (s : string) (d : Z) :
  lenient_day s = Some d ->
  exists dt, In dt day_texts /\ s = day_string dt /\ d = day_number dt.
Proof.
  unfold lenient_day, day_texts.
  destruct s as [|d1 [|d2 [|? ?]]]; try discriminate.
  - destruct (is_decimal d1) eqn:D1; [|discriminate]. intros [= <-].
    exists (Day1 (digit_value d1)). split; [|split].
    + apply in_or_app. left. apply in_map, in_ten. now apply digit_value_range.
    + cbn. now rewrite digit_char_value.
    + reflexivity.
  - destruct (is_decimal d2) eqn:D2; [|discriminate].
    destruct (is_decimal d1) eqn:D1.
    + intros [= <-]. exists (Day2 (digit_value d1) (digit_value d2)). split; [|split].
      * apply in_or_app. right. apply in_or_app. left. apply in_flat_map.
        exists (digit_value d1). split; [apply in_ten; now apply digit_value_range|].
        apply in_map, in_ten. now apply digit_value_range.
      * cbn. now rewrite !digit_char_value.
      * reflexivity.
    + destruct (Ascii.eqb_spec d1 " ") as [->|]; [|discriminate]. intros [= <-].
      exists (DayBlank (digit_value d2)). split; [|split].
      * apply in_or_app. right. apply in_or_app. right.
        apply in_map, in_ten. now apply digit_value_range.
      * cbn. now rewrite digit_char_value.
      * reflexivity.
Qed.

Lemma lenient_month_day_inv (s : string) (m d : Z) :
  lenient_month_day s = Some (m, d) ->
  exists mt dt, In mt month_texts /\ In dt day_texts /\
                s = month_string mt (String "-" (day_string dt)) /\
                m = month_number mt /\ d = day_number dt.
Proof.
  unfold lenient_month_day, month_texts.
  destruct s as [|m1 [|c rest]]; try discriminate.
  destruct (is_decimal m1) eqn:M1; [|discriminate].
  destruct (Ascii.eqb_spec c "-") as [->|Hc].
  - destruct (lenient_day rest) as [d'|] eqn:Ed; [|discriminate]. intros [= <- <-].
    apply lenient_day_inv in Ed. destruct Ed as (dt & Hdt & -> & ->).
    exists (Month1 (digit_value m1)), dt. repeat split; try assumption.
    + apply in_or_app. left. apply in_map, in_ten. now apply digit_value_range.
    + cbn. now rewrite digit_char_value.
  - destruct (is_decimal c) eqn:M2; [|discriminate].
    destruct rest as [|h rest]; [discriminate|].
    destruct (Ascii.eqb_spec h "-") as [->|]; [|discriminate].
    destruct (lenient_day rest) as [d'|] eqn:Ed; [|discriminate]. intros [= <- <-].
    apply lenient_day_inv in Ed. destruct Ed as (dt & Hdt & -> & ->).
    exists (Month2 (digit_value m1) (digit_value c)), dt. repeat split; try assumption.
    + apply in_or_app. right. apply in_flat_map.
      exists (digit_value m1). split; [apply in_ten; now apply digit_value_range|].
      apply in_map, in_ten. now apply digit_value_range.
    + cbn. now rewrite !digit_char_value.
Qed.

Lemma match_md_complete (s : string) (m d : Z) :
  lenient_month_day s = Some (m, d) ->
  between 1 12 m && between 1 31 d = true ->
  match_md s = Some (m, d, "").
Proof.
  intros H Hr. apply lenient_month_day_inv in H.
  destruct H as (mt & dt & Hmt & Hdt & -> & -> & ->).
  pose proof md_text_check_all as Hall. rewrite forallb_forall in Hall.
  specialize (Hall mt Hmt). rewrite forallb_forall in Hall. specialize (Hall dt Hdt).
  unfold md_text_check in Hall. rewrite Hr in Hall.
  destruct (match_md _) as [[[m' d'] [|? ?]]|]; try discriminate.
  apply andb_prop in Hall. destruct Hall as [Em Ed].
  apply Z.eqb_eq in Em, Ed. now subst.
Qed.

Lemma match_ymd_complete (s : string) (y m d : Z) :
  lenient_ymd_fields s = Some (y, m, d) ->
  between 1 12 m && between 1 31 d = true ->
  match_ymd s = Some (y, m, d, "").
Proof.
  unfold lenient_ymd_fields.
  destruct s as [|y1 [|y2 [|y3 [|y4 [|h rest]]]]]; try discriminate.
  destruct (is_decimal y1 && is_decimal y2 && is_decimal y3 && is_decimal y4 &&
            Ascii.eqb h "-") eqn:E; [|discriminate].
  destruct (lenient_month_day rest) as [[m' d']|] eqn:Emd; [|discriminate].
  intros [= <- <- <-] Hr.
  rewrite !andb_true_iff in E. destruct E as ((((Y1 & Y2) & Y3) & Y4) & Hh).
  apply Ascii.eqb_eq in Hh. subst h.
  unfold match_ymd. rewrite year4_decimal by assumption.
  cbn [char_is Ascii.eqb Bool.eqb]. now rewrite (match_md_complete rest m' d' Emd Hr).
Qed.

(** [Birthday(s)], by the shape of [s]. *)
Lemma Birthday_new_lenient (s : string) :
  Birthday_new (PyStr s) =
  match lenient_ymd_fields s with
  | Some (y, m, d) =>
      if valid_date y m d then Ok (mkBirthday (midnight y m d))
      else Raise invalid_birthday
  | None => Raise invalid_birthday
  end.
Proof.
  rewrite Birthday_new_strptime. unfold strptime_ymd.
  destruct (lenient_ymd_fields s) as [[[y m] d]|] eqn:El.
  - destruct (valid_date y m d) eqn:Hv.
    + rewrite (match_ymd_complete s y m d El (valid_date_md y m d Hv)).
      cbn [String.eqb negb].
      destruct (datetime_ymd_cases y m d) as [[_ ->]|[F _]]; [reflexivity | congruence].
    + destruct (match_ymd s) as [[[[y' m'] d'] rest]|] eqn:Em; [|reflexivity].
      destruct rest as [|c rest]; [|reflexivity].
      apply match_ymd_sound in Em. rewrite El in Em. injection Em as <- <- <-.
      cbn [String.eqb negb].
      destruct (datetime_ymd_cases y m d) as [[F _]|[_ [msg ->]]]; [congruence | reflexivity].
  - destruct (match_ymd s) as [[[[y' m'] d'] rest]|] eqn:Em; [|reflexivity].
    destruct rest as [|c rest]; [|reflexivity].
    apply match_ymd_sound in Em. congruence.
Qed.

(** A string of the padded form is one of those strings. *)
Lemma spec_fields_lenient (s : string) (y m d : Z) :
  spec_ymd_fields s = Some (y, m, d) -> lenient_ymd_fields s = Some (y, m, d).
Proof.
  intros H. apply spec_ymd_fields_inv in H.
  destruct H as (y1 & y2 & y3 & y4 & m1 & m2 & d1 & d2 & -> &
                 (Y1 & Y2 & Y3 & Y4) & (M1 & M2) & (D1 & D2) & -> & -> & ->).
  cbn [lenient_ymd_fields lenient_month_day lenient_day].
  rewrite Y1, Y2, Y3, Y4, M1, M2, D1, D2, (decimal_not_dash m2 M2). reflexivity.
Qed.

(** Saving a birthday of the year 1000 or later and constructing it again
    gives it back. *)
Lemma Birthday_roundtrip (b : Birthday) :
  birthday_ok b = true -> 1000 <= year (birthday_value b) ->
  Birthday_new (PyStr (Birthday_str b)) = Ok b.
Proof.
  destruct b as [[y m d h mi se us]]. unfold birthday_ok, Birthday_str.
  cbn [birthday_value year month day hour minute second microsecond].
  rewrite !andb_true_iff, !Z.eqb_eq. intros ((((Hv & ->) & ->) & ->) & ->) Hy.
  change (mkDatetime y m d 0 0 0 0) with (midnight y m d).
  rewrite (Birthday_new_padded _ y m d (strftime_fields y m d Hv Hy)), Hv. reflexivity.
Qed.


Example birthday_rejects_february_30 :
  Birthday_new (PyStr "2023-02-30") = Raise invalid_birthday.
Proof. reflexivity. Qed.

Example birthday_rejects_month_13 :
  Birthday_new (PyStr "2023-13-01") = Raise invalid_birthday.
Proof. reflexivity. Qed.



(** ** days_to_birthday *)

Lemma instant_split (t : datetime) :
  instant t = toordinal t * us_per_day + time_of_day t.
Proof. reflexivity. Qed.

(** On the birthday itself, at any moment after midnight, the comparison
    [today > next_birthday] holds, the next occurrence is taken from next
    year, and the day count is one less than the days between the two
    dates. *)
Lemma days_to_birthday_same_day (self : record) (b : Birthday) (now next : datetime) :
  birthday self = Some b ->
  valid_date (year now) (month now) (day now) = true ->
  month (birthday_value b) = month now ->
  day (birthday_value b) = day now ->
  0 < time_of_day now < us_per_day ->
  datetime_ymd (year now + 1) (month now) (day now) = Ok next ->
  days_to_birthday self now = Ok (Some (toordinal next - toordinal now - 1)).
Proof.
  intros Hb Hv Hm Hd Ht Hn. unfold days_to_birthday. rewrite Hb, Hm, Hd.
  destruct (datetime_ymd_cases (year now) (month now) (day now))
    as [[_ ->]|[E _]]; [|congruence].
  assert (Hord : toordinal (midnight (year now) (month now) (day now)) = toordinal now)
    by reflexivity.
  assert (Hgt : gt now (midnight (year now) (month now) (day now)) = true).
  { unfold gt. rewrite !instant_split, Hord. apply Z.ltb_lt.
    change (time_of_day (midnight _ _ _)) with 0. lia. }
  rewrite Hgt, Hn. do 2 f_equal.
  assert (Hz : time_of_day next = 0).
  { destruct (datetime_ymd_cases (year now + 1) (month now) (day now))
      as [[_ E]|[_ [msg E]]]; rewrite E in Hn; [|discriminate].
    now injection Hn as <-. }
  unfold sub_days. rewrite !instant_split, Hz.
  symmetry. apply (Z.div_unique _ _ _ (us_per_day - time_of_day now)); [lia|].
  lia.
Qed.

(** C1 (the code departs from it): on 2024-06-15 at noon, for a birthday
    on June 15th, [days_to_birthday] returns 364 where the claim says 0;
    it returns 0 at midnight sharp only, and it also returns 0 at noon of
    the day before, where one day is left. *)
Theorem days_to_birthday_on_the_birthday_at_noon :
  month (birthday_value (mkBirthday (midnight 1990 6 15))) = month (mkDatetime 2024 6 15 12 0 0 0) /\
  day (birthday_value (mkBirthday (midnight 1990 6 15))) = day (mkDatetime 2024 6 15 12 0 0 0) /\
  days_to_birthday alice (mkDatetime 2024 6 15 12 0 0 0) = Ok (Some 364) /\
  days_to_birthday alice (mkDatetime 2024 6 15 0 0 0 0) = Ok (Some 0) /\
  days_to_birthday alice (mkDatetime 2024 6 14 12 0 0 0) = Ok (Some 0).
Proof. repeat split; vm_compute; reflexivity. Qed.

(** A birthday on February 29th raises in a year that is not a leap
    year. *)
Example days_to_birthday_february_29 :
  days_to_birthday (mkRecord (mkName "Leap") (Some (mkBirthday (midnight 2000 2 29))) [])
                   (mkDatetime 2023 1 10 9 0 0 0)
  = Raise (ValueError "day is out of range for month").
Proof. reflexivity. Qed.

(** ** get_n_records *)

Lemma get_n_loop_nonempty (self : AddressBook) (r : record) (rs : list record)
      (rounds : nat) (acc : list string) :
  values self = r :: rs ->
  get_n_loop self rounds acc = (acc ++ repeat (Record_str r) rounds)%list.
Proof.
  intros Hv. revert acc. induction rounds as [|k IH]; intros acc; cbn [get_n_loop repeat].
  - now rewrite app_nil_r.
  - unfold record_iterator. rewrite Hv. cbn [map next].
    rewrite IH, <- app_assoc. reflexivity.
Qed.

(** What [get_n_records] returns: every round opens a new generator, so
    every round yields the first record. *)
Lemma get_n_records_repeats_first (self : AddressBook) (n : Z) :
  get_n_records self n =
  match values self with
  | [] => []
  | r :: _ => repeat (Record_str r) (Z.to_nat n)
  end.
Proof.
  unfold get_n_records. destruct (values self) as [|r rs] eqn:Hv.
  - destruct (Z.to_nat n); [reflexivity|].
    cbn [get_n_loop]. unfold record_iterator. now rewrite Hv.
  - now rewrite (get_n_loop_nonempty self r rs).
Qed.

(** C2 (the code departs from it): over the book of Alice and Bob,
    [get_n_records 2] returns Alice's display string twice, where the
    slice of the first two display strings is Alice's and then Bob's; and
    [get_n_records 3] returns three strings from a book of two records. *)
Theorem get_n_records_is_not_a_slice :
  get_n_records alice_and_bob 2 = [Record_str alice; Record_str alice] /\
  spec_getFirstN alice_and_bob 2 = [Record_str alice; Record_str bob] /\
  get_n_records alice_and_bob 2 <> spec_getFirstN alice_and_bob 2 /\
  List.length (get_n_records alice_and_bob 3) = 3%nat /\
  List.length (values alice_and_bob) = 2%nat.
Proof. repeat split. discriminate. Qed.

(** The two agree on an empty book, and for [n <= 1]. *)
Lemma get_n_records_slice_small (self : AddressBook) (n : Z) :
  n <= 1 -> get_n_records self n = spec_getFirstN self n.
Proof.
  intros Hn. rewrite get_n_records_repeats_first. unfold spec_getFirstN.
  destruct (values self) as [|r rs]; [now rewrite firstn_nil|].
  assert (Z.to_nat n = 0%nat \/ Z.to_nat n = 1%nat) as [->| ->] by lia; reflexivity.
Qed.

(** ** add_record: the merge of two records of one name *)

Lemma set_data_same (self : AddressBook) : set_data (data self) self = self.
Proof. now destruct self. Qed.

(** C5: adding to a new book two records whose names are equal up to
    case leaves one record, under the first record's name as given, with
    the first record's birthday and with the phones of the first followed
    by the phones of the second, duplicates kept. *)
Theorem add_record_twice_merges (r1 r2 : record) :
  lower (name_value (name r1)) = lower (name_value (name r2)) ->
  let s1 := add_record r1 AddressBook_new in
  let s2 := add_record r2 (fst s1) in
  snd s1 = Ok tt /\ snd s2 = Ok tt /\
  data (fst s2) =
    [(name_value (name r1),
      mkRecord (name r1) (birthday r1) (phones r1 ++ phones r2))].
Proof.
  intros Hn s1 s2.
  assert (H1 : s1 = (set_data [(name_value (name r1), r1)] AddressBook_new, Ok tt))
    by reflexivity.
  assert (Hm : name_is (lower (name_value (name r2))) r1 = true)
    by (unfold name_is; rewrite Hn; apply String.eqb_refl).
  subst s2. rewrite H1. cbn [fst snd]. unfold add_record, values.
  cbn [data set_data AddressBook_new map snd existsb on_first].
  rewrite Hm. cbn. repeat split.
Qed.

Lemma add_record_twice_merges_witness :
  let r1 := alice in
  let r2 := mkRecord (mkName "ALICE") (Some (mkBirthday (midnight 2001 1 1)))
                     [mkPhone (PyStr "1234567890"); mkPhone (PyStr "0987654321")] in
  data (fst (add_record r2 (fst (add_record r1 AddressBook_new)))) =
    [("Alice", mkRecord (mkName "Alice") (Some (mkBirthday (midnight 1990 6 15)))
                 [mkPhone (PyStr "1234567890"); mkPhone (PyStr "1234567890");
                  mkPhone (PyStr "0987654321")])].
Proof.
  intros r1 r2.
  exact (proj2 (proj2 (add_record_twice_merges r1 r2 eq_refl))).
Defined.

(** ** search *)

Lemma prefix_empty (s : string) : prefix "" s = true.
Proof. now destruct s. Qed.

Lemma str_in_empty (s : string) : str_in "" s = true.
Proof. destruct s; cbn; [reflexivity | reflexivity]. Qed.

Lemma filter_all {A} (p : A -> bool) (l : list A) :
  (forall x, p x = true) -> filter p l = l.
Proof.
  intros Hp. induction l as [|x l IH]; cbn; [reflexivity|].
  now rewrite Hp, IH.
Qed.

(** C10: the empty query selects every record: [search] returns the
    display string of each record of the book, in the order of the dict. *)
Theorem search_empty_query (self : AddressBook) :
  search self "" = map Record_str (values self).
Proof.
  unfold search. cbn [lower]. rewrite filter_all; [reflexivity|].
  intros r. now rewrite str_in_empty.
Qed.

(** ** get_page *)

Lemma slice_nonneg {A} (l : list A) (start stop : Z) :
  0 <= start <= stop ->
  slice l start stop =
  firstn (Z.to_nat (stop - start)) (skipn (Z.to_nat start) l).
Proof.
  intros H. unfold slice.
  set (n := Z.of_nat (List.length l)).
  assert (Hn : 0 <= n) by (subst n; lia).
  replace (start <? 0) with false by (symmetry; apply Z.ltb_ge; lia).
  replace (stop <? 0) with false by (symmetry; apply Z.ltb_ge; lia).
  destruct (Z.le_gt_cases stop n) as [Hs|Hs].
  - now rewrite !Z.min_l by lia.
  - rewrite (Z.min_r stop n) by lia.
    destruct (Z.le_gt_cases start n) as [Ht|Ht].
    + rewrite Z.min_l by lia.
      rewrite !firstn_all2; [reflexivity| |]; rewrite length_skipn; lia.
    + rewrite Z.min_r by lia. replace (n - n) with 0 by lia.
      rewrite (skipn_all2 l (n:=Z.to_nat start)) by lia.
      cbn. now rewrite firstn_nil.
Qed.

(** C8: with the page size 5 and a page number [p >= 1], [get_page]
    returns the records at positions [(p-1)*5 .. min(p*5, N) - 1] of the
    book, in order, N being the number of records: it is the slice
    of at most five records from position [(p-1)*5], its length is
    [min(p*5, N) - min((p-1)*5, N)], its i-th element is the record at
    position [(p-1)*5 + i], and it is empty when the page lies beyond the
    last record.  The function is total: no page number raises. *)
Theorem get_page_slice (self : AddressBook) (p : Z) :
  page_size self = 5 -> 1 <= p ->
  let N := Z.of_nat (List.length (values self)) in
  let page := get_page self p in
  page = firstn 5 (skipn (Z.to_nat ((p - 1) * 5)) (values self)) /\
  Z.of_nat (List.length page) = Z.min (p * 5) N - Z.min ((p - 1) * 5) N /\
  (forall i : nat, (i < List.length page)%nat ->
     nth_error page i = nth_error (values self) (Z.to_nat ((p - 1) * 5) + i)) /\
  (N <= (p - 1) * 5 -> page = []).
Proof.
  intros Hs Hp N page.
  assert (E : page = firstn 5 (skipn (Z.to_nat ((p - 1) * 5)) (values self))).
  { subst page. unfold get_page. rewrite Hs, slice_nonneg by lia.
    now replace (Z.to_nat ((p - 1) * 5 + 5 - (p - 1) * 5)) with 5%nat by lia. }
  split; [exact E|]. rewrite E. clear E page. split; [|split].
  - rewrite length_firstn, length_skipn. subst N. lia.
  - intros i Hi. rewrite length_firstn in Hi.
    rewrite nth_error_firstn.
    replace (i <? 5)%nat with true by (symmetry; apply Nat.ltb_lt; lia).
    now rewrite nth_error_skipn.
  - intros HN. rewrite skipn_all2 by (subst N; lia). reflexivity.
Qed.

Lemma get_page_slice_witness :
  get_page alice_and_bob 1 = [alice; bob] /\ get_page alice_and_bob 2 = [].
Proof.
  destruct (get_page_slice alice_and_bob 1 eq_refl ltac:(lia)) as (E1 & _).
  destruct (get_page_slice alice_and_bob 2 eq_refl ltac:(lia)) as (E2 & _).
  split; [exact E1 | exact E2].
Defined.

(** ** change_phone and edit_phone: failures *)

Lemma lower_char_idem (c : ascii) : lower_char (lower_char c) = lower_char c.
Proof. destruct c as [[] [] [] [] [] [] [] []]; reflexivity. Qed.

Lemma lower_idem (s : string) : lower (lower s) = lower s.
Proof.
  induction s as [|c s IH]; cbn; [reflexivity|].
  now rewrite lower_char_idem, IH.
Qed.

(** [on_first] finds nothing exactly when no record satisfies [p]. *)
Lemma on_first_none {A} (p : record -> bool) (m : M record A) (d : dict) :
  (forall e, In e d -> p (snd e) = false) -> on_first p m d = None.
Proof.
  induction d as [|[k r] d IH]; intros H; cbn; [reflexivity|].
  pose proof (H (k, r) (or_introl eq_refl)) as Hk. cbn in Hk. rewrite Hk.
  rewrite IH; [reflexivity|]. intros e He. apply H. now right.
Qed.

(** [on_first] runs the method on the first record that satisfies [p] and
    leaves it where it was; the other records are not touched. *)
Lemma on_first_at {A} (p : record -> bool) (m : M record A)
      (d1 d2 : dict) (k : string) (r : record) :
  (forall e, In e d1 -> p (snd e) = false) -> p r = true ->
  on_first p m (d1 ++ (k, r) :: d2) =
  Some (d1 ++ (k, fst (m r)) :: d2, snd (m r)).
Proof.
  induction d1 as [|[k1 r1] d1 IH]; intros H Hr; cbn.
  - rewrite Hr. now destruct (m r).
  - pose proof (H (k1, r1) (or_introl eq_refl)) as Hk. cbn in Hk. rewrite Hk.
    rewrite IH; [reflexivity| |exact Hr]. intros e He. apply H. now right.
Qed.

(** Either no record satisfies [p], or the dict splits at the first one
    that does. *)
Lemma first_split (p : record -> bool) (d : dict) :
  (forall e, In e d -> p (snd e) = false) \/
  exists d1 k r d2, d = d1 ++ (k, r) :: d2 /\
                    (forall e, In e d1 -> p (snd e) = false) /\ p r = true.
Proof.
  induction d as [|[k r] d IH].
  - left. intros e [].
  - destruct (p r) eqn:Hr.
    + right. exists [], k, r, d. repeat split; [intros e []| exact Hr].
    + destruct IH as [IH|(d1 & k' & r' & d2 & -> & H1 & H2)].
      * left. intros e [<-|He]; [exact Hr | now apply IH].
      * right. exists ((k, r) :: d1), k', r', d2. repeat split; [|exact H2].
        intros e [<-|He]; [exact Hr | now apply H1].
Qed.

Lemma edit_phone_loop_absent (old_phone new_phone : pyval) (ps : list Phone) :
  (forall p, In p ps -> str_equals (str (phone_value p)) old_phone = false) ->
  edit_phone_loop old_phone new_phone ps =
  (ps, Raise (ValueError "Phone number does not exist in the record")).
Proof.
  induction ps as [|p ps IH]; intros H; cbn; [reflexivity|].
  rewrite (H p) by now left.
  rewrite IH; [reflexivity|]. intros q Hq. apply H. now right.
Qed.

Lemma Phone_set_value_raise (v : pyval) (p : Phone) (e : exn) :
  snd (Phone_set_value v p) = Raise e ->
  fst (Phone_set_value v p) = p /\ e = ValueError "Invalid phone number format".
Proof.
  rewrite Phone_set_value_format.
  destruct (phone_format v); cbn; [discriminate|]. now intros [= <-].
Qed.

Lemma edit_phone_loop_raise (old_phone new_phone : pyval) (ps : list Phone) (e : exn) :
  snd (edit_phone_loop old_phone new_phone ps) = Raise e ->
  fst (edit_phone_loop old_phone new_phone ps) = ps.
Proof.
  induction ps as [|p ps IH]; cbn [edit_phone_loop]; [reflexivity|].
  destruct (str_equals (str (phone_value p)) old_phone).
  - destruct (Phone_set_value new_phone p) as [p' r] eqn:E. cbn [fst snd]. intros ->.
    destruct (Phone_set_value_raise new_phone p e) as [Hp _]; [now rewrite E|].
    rewrite E in Hp. cbn [fst] in Hp. now subst.
  - destruct (edit_phone_loop old_phone new_phone ps) as [ps' r]. cbn [fst snd] in *.
    intros H. now rewrite IH.
Qed.

Lemma set_phones_same (r : record) : set_phones (phones r) r = r.
Proof. now destruct r. Qed.

Lemma edit_phone_raise (old_phone new_phone : pyval) (r : record) (e : exn) :
  snd (edit_phone old_phone new_phone r) = Raise e ->
  fst (edit_phone old_phone new_phone r) = r.
Proof.
  unfold edit_phone. intros H.
  pose proof (edit_phone_loop_raise old_phone new_phone (phones r) e) as L.
  destruct (edit_phone_loop old_phone new_phone (phones r)) as [ps out].
  cbn in *. rewrite (L H). apply set_phones_same.
Qed.

(** An old phone that is there and a new value that is not a phone: the
    setter raises and the record stays as it was. *)
Lemma edit_phone_invalid_new (old_phone new_phone : pyval) (r : record) :
  existsb (fun p => str_equals (str (phone_value p)) old_phone) (phones r) = true ->
  phone_format new_phone = false ->
  edit_phone old_phone new_phone r = (r, Raise (ValueError "Invalid phone number format")).
Proof.
  intros Hex Hbad. unfold edit_phone.
  assert (L : edit_phone_loop old_phone new_phone (phones r) =
              (phones r, Raise (ValueError "Invalid phone number format"))).
  { induction (phones r) as [|p ps IH]; [discriminate|].
    cbn [edit_phone_loop existsb] in *.
    destruct (str_equals (str (phone_value p)) old_phone).
    - now rewrite Phone_set_value_format, Hbad.
    - cbn [orb] in Hex. now rewrite (IH Hex). }
  rewrite L. now rewrite set_phones_same.
Qed.

(** C9: [change_phone] raises ValueError("Contact <name> not found") when
    no record has the name up to case, and otherwise runs [edit_phone] on
    the first record that has it and passes its outcome on; [edit_phone]
    raises ValueError("Phone number does not exist in the record") when no
    stored phone has the old text; and whenever either of them raises (no
    contact, no such phone, or a new value that is not a phone) the record
    and the book are what they were. *)
Theorem change_phone_failures
        (self : AddressBook) (name_ : string) (old_phone new_phone : pyval) :
  ((forall r, In r (values self) ->
              lower (name_value (name r)) <> lower name_) ->
   change_phone name_ old_phone new_phone self =
   (self, Raise (ValueError ("Contact " ++ name_ ++ " not found")%string))) /\
  (forall d1 k r d2,
     data self = (d1 ++ (k, r) :: d2) ->
     (forall e, In e d1 -> lower (name_value (name (snd e))) <> lower name_) ->
     lower (name_value (name r)) = lower name_ ->
     change_phone name_ old_phone new_phone self =
     (set_data (d1 ++ (k, fst (edit_phone old_phone new_phone r)) :: d2) self,
      snd (edit_phone old_phone new_phone r))) /\
  (forall r,
     (forall p, In p (phones r) -> str_equals (str (phone_value p)) old_phone = false) ->
     edit_phone old_phone new_phone r =
     (r, Raise (ValueError "Phone number does not exist in the record"))) /\
  (forall r e, snd (edit_phone old_phone new_phone r) = Raise e ->
               fst (edit_phone old_phone new_phone r) = r) /\
  (forall e, snd (change_phone name_ old_phone new_phone self) = Raise e ->
             fst (change_phone name_ old_phone new_phone self) = self).
Proof.
  assert (Hneq : forall r, lower (name_value (name r)) <> lower name_ ->
                           name_is (lower (lower name_)) r = false).
  { intros r H. unfold name_is. rewrite lower_idem. now apply String.eqb_neq. }
  assert (Heq : forall r, lower (name_value (name r)) = lower name_ ->
                          name_is (lower (lower name_)) r = true).
  { intros r H. unfold name_is. rewrite lower_idem, H. apply String.eqb_refl. }
  split; [|split; [|split; [|split]]].
  - intros H. unfold change_phone. rewrite on_first_none; [reflexivity|].
    intros e He. apply Hneq, H. unfold values. now apply in_map.
  - intros d1 k r d2 Hd H1 Hr. unfold change_phone. rewrite Hd.
    rewrite on_first_at; [reflexivity| |now apply Heq].
    intros e He. now apply Hneq, H1.
  - intros r H. unfold edit_phone. rewrite edit_phone_loop_absent by exact H.
    now rewrite set_phones_same.
  - apply edit_phone_raise.
  - intros e. unfold change_phone.
    destruct (first_split (name_is (lower (lower name_))) (data self))
      as [Hnone|(d1 & k & r & d2 & Hd & H1 & Hr)].
    + now rewrite on_first_none.
    + rewrite Hd, on_first_at by assumption. cbn [fst snd]. intros H.
      rewrite (edit_phone_raise _ _ _ _ H), <- Hd. apply set_data_same.
Qed.

Lemma change_phone_failures_witness :
  change_phone "Carol" (PyStr "1234567890") (PyStr "0987654321") alice_and_bob =
    (alice_and_bob, Raise (ValueError "Contact Carol not found")) /\
  change_phone "ALICE" (PyStr "1111111111") (PyStr "0987654321") alice_and_bob =
    (alice_and_bob, Raise (ValueError "Phone number does not exist in the record")) /\
  change_phone "ALICE" (PyStr "1234567890") (PyStr "12345") alice_and_bob =
    (alice_and_bob, Raise (ValueError "Invalid phone number format")).
Proof.
  split; [|split].
  - apply (proj1 (change_phone_failures alice_and_bob "Carol" _ _)).
    intros r [<-|[<-|[]]]; discriminate.
  - destruct (change_phone_failures alice_and_bob "ALICE" (PyStr "1111111111")
                (PyStr "0987654321")) as (_ & H & _).
    exact (H [] "Alice" alice [("Bob", bob)] eq_refl (fun e F => match F with end) eq_refl).
  - destruct (change_phone_failures alice_and_bob "ALICE" (PyStr "1234567890")
                (PyStr "12345")) as (_ & H & _).
    exact (H [] "Alice" alice [("Bob", bob)] eq_refl (fun e F => match F with end) eq_refl).
Defined.

(** ** One record per name: what keeps it and what does not *)

Lemma existsb_eqb_In (x : string) (l : list string) :
  existsb (String.eqb x) l = true <-> In x l.
Proof.
  rewrite existsb_exists. split.
  - intros (y & Hy & E). apply String.eqb_eq in E. now subst.
  - intros H. exists x. split; [exact H | apply String.eqb_refl].
Qed.

Lemma distinct_NoDup (l : list string) : distinct l = true <-> NoDup l.
Proof.
  induction l as [|x l IH]; cbn.
  - split; [constructor | reflexivity].
  - rewrite andb_true_iff, negb_true_iff, IH. split.
    + intros [Hx Hl]. constructor; [|exact Hl].
      intros Hin. apply existsb_eqb_In in Hin. congruence.
    + intros H. inversion H as [|? ? Hx Hl]; subst. split; [|exact Hl].
      destruct (existsb (String.eqb x) l) eqn:E; [|reflexivity].
      apply existsb_eqb_In in E. contradiction.
Qed.

Lemma keyed_by_name_Forall (d : dict) :
  keyed_by_name d = true <-> Forall (fun e => fst e = name_value (name (snd e))) d.
Proof.
  unfold keyed_by_name. rewrite forallb_forall, Forall_forall.
  split; intros H e He; [apply String.eqb_eq | apply String.eqb_eq]; now apply H.
Qed.

Lemma dict_has_In (key : string) (d : dict) :
  dict_has key d = true <-> In key (map fst d).
Proof.
  induction d as [|[k x] d IH]; cbn; [easy|].
  rewrite orb_true_iff, IH, String.eqb_eq. tauto.
Qed.

Lemma dict_set_fresh (key : string) (v : record) (d : dict) :
  ~ In key (map fst d) -> dict_set key v d = d ++ [(key, v)].
Proof.
  induction d as [|[k x] d IH]; cbn; [reflexivity|]. intros H.
  destruct (String.eqb_spec k key) as [->|_]; [tauto|].
  rewrite IH by tauto. reflexivity.
Qed.

Lemma dict_remove_split (key : string) (d : dict) :
  dict_remove key d = d \/
  exists d1 x d2, d = d1 ++ (key, x) :: d2 /\ dict_remove key d = d1 ++ d2.
Proof.
  induction d as [|[k x] d IH]; cbn; [now left|].
  destruct (String.eqb_spec k key) as [->|_].
  - right. now exists [], x, d.
  - destruct IH as [->|(d1 & y & d2 & -> & ->)]; [now left|].
    right. now exists ((k, x) :: d1), y, d2.
Qed.

(** A method that keeps the name of the record, run by [on_first], keeps
    the keys and the names of the dict. *)
Lemma on_first_names {A} (p : record -> bool) (m : M record A) (d d' : dict) (out : result A) :
  (forall r, name (fst (m r)) = name r) ->
  on_first p m d = Some (d', out) ->
  map fst d' = map fst d /\ lowered_names d' = lowered_names d /\
  (keyed_by_name d = true -> keyed_by_name d' = true).
Proof.
  intros Hm. destruct (first_split p d) as [Hnone|(d1 & k & r & d2 & -> & H1 & Hr)].
  - now rewrite on_first_none.
  - rewrite on_first_at by assumption. intros [= <- <-].
    unfold lowered_names, keyed_by_name.
    rewrite !map_app, !forallb_app. cbn. rewrite Hm. auto.
Qed.

Lemma edit_phone_name (old_phone new_phone : pyval) (r : record) :
  name (fst (edit_phone old_phone new_phone r)) = name r.
Proof.
  unfold edit_phone. now destruct (edit_phone_loop old_phone new_phone (phones r)).
Qed.

Lemma existsb_name_is (x : string) (d : dict) :
  existsb (name_is x) (map snd d) = true <-> In x (lowered_names d).
Proof.
  unfold lowered_names. rewrite existsb_exists, in_map_iff. split.
  - intros (r & Hr & E). apply in_map_iff in Hr. destruct Hr as (e & <- & He).
    apply String.eqb_eq in E. eauto.
  - intros (e & E & He). exists (snd e). split; [now apply in_map|].
    now apply String.eqb_eq.
Qed.

Lemma add_record_inv (r : record) (self : AddressBook) :
  book_inv self = true -> book_inv (fst (add_record r self)) = true.
Proof.
  unfold book_inv, one_per_name. rewrite !andb_true_iff. intros [Hk Hd].
  unfold add_record, values.
  destruct (existsb _ _) eqn:Hex.
  - destruct (on_first _ _ _) as [[d out]|] eqn:E; [|now split].
    apply on_first_names in E; [|reflexivity]. destruct E as (_ & E & K).
    cbn [fst data set_data]. rewrite E. auto.
  - cbn [fst data set_data].
    assert (Hfresh : ~ In (name_value (name r)) (map fst (data self))).
    { intros Hin. apply in_map_iff in Hin. destruct Hin as (e & He1 & He).
      apply keyed_by_name_Forall in Hk. rewrite Forall_forall in Hk.
      specialize (Hk e He). rewrite He1 in Hk.
      assert (In (lower (name_value (name r))) (lowered_names (data self))) as Hin.
      { unfold lowered_names. apply in_map_iff. exists e. now rewrite <- Hk. }
      apply existsb_name_is in Hin. congruence. }
    rewrite dict_set_fresh by exact Hfresh. split.
    + unfold keyed_by_name in *. rewrite forallb_app, Hk. cbn.
      now rewrite String.eqb_refl.
    + apply distinct_NoDup. apply distinct_NoDup in Hd.
      unfold lowered_names in *. rewrite map_app. cbn.
      apply NoDup_app; repeat split; [exact Hd | repeat constructor; intros [] |].
      intros x Hx [<-|[]]. fold (lowered_names (data self)) in Hx.
      apply existsb_name_is in Hx. congruence.
Qed.

Lemma delete_inv (name_ : string) (self : AddressBook) :
  book_inv self = true -> book_inv (fst (delete name_ self)) = true.
Proof.
  intros Hinv. unfold delete.
  destruct (List.find _ _) as [r|]; [|exact Hinv].
  destruct (dict_has _ _); [|exact Hinv].
  cbn [fst]. revert Hinv. unfold book_inv, one_per_name. cbn [data set_data].
  destruct (dict_remove_split (name_value (name r)) (data self))
    as [->|(d1 & x & d2 & -> & ->)]; [easy|].
  rewrite !andb_true_iff, !distinct_NoDup. unfold keyed_by_name, lowered_names.
  rewrite !forallb_app, !map_app. cbn. rewrite !andb_true_iff.
  intros [(K1 & _ & K2) Hd]. split; [now split|].
  now apply NoDup_remove_1 in Hd.
Qed.

Lemma change_phone_inv (name_ : string) (old_phone new_phone : pyval) (self : AddressBook) :
  book_inv self = true ->
  book_inv (fst (change_phone name_ old_phone new_phone self)) = true.
Proof.
  intros Hinv. unfold change_phone.
  destruct (on_first _ _ _) as [[d out]|] eqn:E; [|exact Hinv].
  apply on_first_names in E; [|intros r; apply edit_phone_name].
  destruct E as (_ & E & K). revert Hinv. unfold book_inv, one_per_name.
  cbn [fst data set_data]. rewrite E, !andb_true_iff. intros [Hk Hd]. auto.
Qed.

Lemma Record_new_name (n : string) (b : pyval) (ps : option (list pyval)) (r : record) :
  Record_new n b ps = Ok r -> name r = mkName n.
Proof.
  unfold Record_new.
  destruct (if truthy b then _ else _) as [ob|]; [|discriminate].
  destruct (match ps with Some (p :: l) => _ | _ => _ end) as [l|]; [|discriminate].
  now intros [= <-].
Qed.

(** Loading entries whose names differ from one another, and from the
    names loaded so far, appends one record per entry. *)
Lemma load_entries_distinct (entries : list json_entry) (acc d : dict) :
  load_entries entries acc = Ok d ->
  keyed_by_name acc = true ->
  NoDup (lowered_names acc ++ map (fun e => lower (j_name e)) entries) ->
  keyed_by_name d = true /\
  lowered_names d = lowered_names acc ++ map (fun e => lower (j_name e)) entries.
Proof.
  revert acc. induction entries as [|e entries IH]; intros acc; cbn [load_entries map].
  - intros [= <-] Hk _. now rewrite app_nil_r.
  - destruct (Record_new _ _ _) as [r|] eqn:Er; [|discriminate].
    apply Record_new_name in Er. intros Hl Hk Hd.
    assert (Hfresh : ~ In (j_name e) (map fst acc)).
    { intros Hin. apply in_map_iff in Hin. destruct Hin as (x & Hx & Hin).
      apply NoDup_remove_2 in Hd. apply Hd, in_or_app. left.
      apply keyed_by_name_Forall in Hk. rewrite Forall_forall in Hk.
      unfold lowered_names. apply in_map_iff. exists x. split; [|exact Hin].
      now rewrite <- (Hk x Hin), Hx. }
    rewrite dict_set_fresh in Hl by exact Hfresh.
    apply IH in Hl.
    + destruct Hl as [K L]. split; [exact K|]. rewrite L.
      unfold lowered_names. rewrite map_app, <- app_assoc. cbn. now rewrite Er.
    + unfold keyed_by_name in *. rewrite forallb_app, Hk. cbn.
      now rewrite Er, String.eqb_refl.
    + unfold lowered_names in *. rewrite map_app, <- app_assoc. cbn. now rewrite Er.
Qed.

Lemma load_from_file_inv (file : option (list json_entry)) (self : AddressBook) :
  file_one_per_name file = true -> book_inv self = true ->
  book_inv (fst (load_from_file file self)) = true.
Proof.
  intros Hf Hinv. unfold load_from_file. destruct file as [entries|]; [|exact Hinv].
  destruct (load_entries entries []) as [d|] eqn:E; [|exact Hinv].
  apply load_entries_distinct in E; [|reflexivity|now apply distinct_NoDup].
  destruct E as [K L]. unfold book_inv, one_per_name. cbn [fst data set_data].
  rewrite K, L. exact Hf.
Qed.

Lemma saved_names (self : AddressBook) :
  map (fun e => lower (j_name e)) (save_to_file self) = lowered_names (data self).
Proof.
  unfold save_to_file, values, lowered_names. rewrite !map_map. reflexivity.
Qed.

Lemma step_inv (o : op) (st : AddressBook * option (list json_entry)) :
  book_inv (fst st) = true -> file_one_per_name (snd st) = true ->
  book_inv (fst (step st o)) = true /\ file_one_per_name (snd (step st o)) = true.
Proof.
  destruct st as [book file]. cbn [fst snd]. intros Hb Hf.
  destruct o; cbn [step fst snd]; split; try assumption.
  - now apply add_record_inv.
  - now apply delete_inv.
  - now apply change_phone_inv.
  - cbn [file_one_per_name]. rewrite saved_names.
    unfold book_inv in Hb. now apply andb_prop in Hb.
  - now apply load_from_file_inv.
Qed.

(** Starting from a new book, every sequence of add_record, delete,
    change_phone, save_to_file and load_from_file keeps one record per
    name, as long as the file read is absent, was written by save_to_file
    during the sequence, or itself has one entry per name. *)
Lemma run_keeps_one_per_name (ops : list op) (file : option (list json_entry)) :
  file_one_per_name file = true ->
  one_per_name (fst (run ops (AddressBook_new, file))) = true.
Proof.
  intros Hf.
  assert (H : forall st, book_inv (fst st) = true -> file_one_per_name (snd st) = true ->
                         book_inv (fst (run ops st)) = true).
  { unfold run. induction ops as [|o ops IH]; intros st Hb Hs; [exact Hb|].
    cbn [fold_left]. destruct (step_inv o st Hb Hs). now apply IH. }
  specialize (H (AddressBook_new, file) eq_refl Hf).
  unfold book_inv in H. now apply andb_prop in H.
Qed.

(** C4 (the code departs from it): [load_from_file] takes the names of
    the file as they are.  From a file with an entry for Alice and an
    entry for alice it builds a book with both records, two for one name;
    [add_record] with the same two records keeps one. *)
Theorem load_from_file_two_records_of_one_name :
  lower "Alice" = lower "alice" /\
  snd (load_from_file (Some two_alices) AddressBook_new) = Ok tt /\
  map fst (data (fst (load_from_file (Some two_alices) AddressBook_new))) =
    ["Alice"; "alice"] /\
  one_per_name (fst (load_from_file (Some two_alices) AddressBook_new)) = false /\
  one_per_name (fst (run [OpLoad] (AddressBook_new, Some two_alices))) = false /\
  map fst (data (fst (run
    [OpAdd (mkRecord (mkName "Alice") None [mkPhone (PyStr "1234567890")]);
     OpAdd (mkRecord (mkName "alice") None [mkPhone (PyStr "0987654321")])]
    (AddressBook_new, None)))) = ["Alice"].
Proof. repeat split. Qed.

(** ** save_to_file, then load_from_file *)

Lemma Birthday_str_truthy (b : Birthday) : truthy (PyStr (Birthday_str b)) = true.
Proof.
  unfold Birthday_str, strftime_ymd, year_str.
  destruct (year (birthday_value b) <? 10); [reflexivity|].
  destruct (year (birthday_value b) <? 100); [reflexivity|].
  destruct (year (birthday_value b) <? 1000); reflexivity.
Qed.

Lemma comprehension_saved_phones (ps : list Phone) :
  forallb phone_is_number ps = true ->
  comprehension Phone_new (map (fun phone => PyStr (str (phone_value phone))) ps) = Ok ps.
Proof.
  induction ps as [|[v] ps IH]; cbn [forallb map comprehension]; [reflexivity|].
  rewrite andb_true_iff. unfold phone_is_number at 1. cbn [phone_value].
  rewrite andb_true_iff. intros [[Hs Hf] Hps].
  destruct v as [|s|n]; try discriminate. cbn [str].
  rewrite Phone_new_format, Hf, (IH Hps). reflexivity.
Qed.

(** Constructing a record from what [to_json] writes of it gives the
    record back. *)
Lemma Record_new_to_json (r : record) :
  record_ok r = true ->
  Record_new (j_name (to_json r)) (j_birthday (to_json r)) (j_phones (to_json r)) = Ok r.
Proof.
  destruct r as [[n] ob ps]. unfold record_ok, to_json, Record_new.
  cbn [name birthday phones j_name j_birthday j_phones Name_str name_value].
  rewrite andb_true_iff. intros [Hps Hb].
  assert (Eb : (if truthy match ob with Some b => PyStr (Birthday_str b) | None => PyNone end
                then match Birthday_new match ob with
                                        | Some b => PyStr (Birthday_str b)
                                        | None => PyNone
                                        end with
                     | Ok b => Ok (Some b)
                     | Raise e => Raise e
                     end
                else Ok None) = Ok ob).
  { destruct ob as [b|]; [|reflexivity].
    apply andb_prop in Hb. destruct Hb as [Hb Hy]. apply Z.leb_le in Hy.
    rewrite Birthday_str_truthy, (Birthday_roundtrip b Hb Hy). reflexivity. }
  rewrite Eb.
  pose proof (comprehension_saved_phones ps Hps) as Ec.
  destruct ps as [|p ps]; [reflexivity|].
  cbn [map] in *. rewrite Ec. reflexivity.
Qed.

Lemma load_entries_saved (d acc : dict) :
  keyed_by_name d = true ->
  forallb (fun e => record_ok (snd e)) d = true ->
  NoDup (map fst acc ++ map fst d) ->
  load_entries (map to_json (map snd d)) acc = Ok (acc ++ d).
Proof.
  revert acc. induction d as [|[k r] d IH]; intros acc; cbn [map load_entries forallb keyed_by_name fst snd].
  - intros _ _ _. now rewrite app_nil_r.
  - rewrite !andb_true_iff. intros [Hk Kd] [Hr Rd] Hn.
    apply String.eqb_eq in Hk. subst k.
    rewrite (Record_new_to_json r Hr). cbn [to_json j_name Name_str].
    rewrite dict_set_fresh.
    + rewrite IH; [now rewrite <- app_assoc|exact Kd|exact Rd|].
      rewrite map_app, <- app_assoc. exact Hn.
    + apply NoDup_remove_2 in Hn. intros Hin. apply Hn, in_or_app. now left.
Qed.

Lemma book_inv_keys (self : AddressBook) :
  book_inv self = true ->
  keyed_by_name (data self) = true /\ NoDup (map fst (data self)).
Proof.
  unfold book_inv, one_per_name. rewrite andb_true_iff, distinct_NoDup.
  intros [Hk Hd]. split; [exact Hk|].
  apply keyed_by_name_Forall in Hk. rewrite Forall_forall in Hk.
  apply (NoDup_map_inv lower).
  replace (map lower (map fst (data self))) with (lowered_names (data self)); [exact Hd|].
  unfold lowered_names. rewrite map_map. apply map_ext_in.
  intros e He. now rewrite (Hk e He).
Qed.




Lemma book_ok_no_none_phone (self : AddressBook) :
  book_ok self = true -> no_none_phone self = true.
Proof.
  unfold book_ok, no_none_phone. rewrite andb_true_iff. intros [Hinv Hr].
  destruct (book_inv_keys self Hinv) as [Hk Hn].
  apply distinct_NoDup in Hn. now rewrite Hk, Hn, Hr.
Qed.

(** *** The books the theorem covers

    Every book built from a new one, with no file to start with, by
    operations that bring no [None] phone and no birthday before the year
    1000, is a [book_ok] one, and so one with [no_none_phone]. *)

Lemma on_first_forall {A} (P : record -> bool) (p : record -> bool) (m : M record A)
      (d d' : dict) (out : result A) :
  (forall r, P r = true -> P (fst (m r)) = true) ->
  on_first p m d = Some (d', out) ->
  forallb (fun e => P (snd e)) d = true -> forallb (fun e => P (snd e)) d' = true.
Proof.
  intros Hm. destruct (first_split p d) as [Hnone|(d1 & k & r & d2 & -> & H1 & Hr)].
  - now rewrite on_first_none.
  - rewrite on_first_at by assumption. intros [= <- <-].
    rewrite !forallb_app. cbn. rewrite !andb_true_iff.
    intros (F1 & Fr & F2). auto.
Qed.

Lemma edit_phone_loop_ok (old_phone new_phone : pyval) (ps : list Phone) :
  isinstance_str new_phone = true ->
  forallb phone_is_number ps = true ->
  forallb phone_is_number (fst (edit_phone_loop old_phone new_phone ps)) = true.
Proof.
  intros Hs. induction ps as [|p ps IH]; cbn [edit_phone_loop forallb]; [reflexivity|].
  rewrite andb_true_iff. intros [Hp Hps].
  destruct (str_equals _ _).
  - rewrite Phone_set_value_format. destruct (phone_format new_phone) eqn:Hf;
      cbn [fst forallb]; rewrite Hps, ?Hp, ?andb_true_r; [|reflexivity].
    unfold phone_is_number. cbn [phone_value]. now rewrite Hs, Hf.
  - destruct (edit_phone_loop old_phone new_phone ps) as [ps' out].
    cbn [fst forallb] in *. now rewrite Hp, IH.
Qed.

Lemma edit_phone_ok (old_phone new_phone : pyval) (r : record) :
  isinstance_str new_phone = true ->
  record_ok r = true -> record_ok (fst (edit_phone old_phone new_phone r)) = true.
Proof.
  intros Hs. unfold record_ok, edit_phone. rewrite andb_true_iff. intros [Hp Hb].
  pose proof (edit_phone_loop_ok old_phone new_phone (phones r) Hs Hp) as L.
  destruct (edit_phone_loop old_phone new_phone (phones r)) as [ps out].
  cbn [fst set_phones phones birthday] in *. now rewrite L, Hb.
Qed.

Lemma extend_phones_ok (r r' : record) :
  record_ok r' = true -> record_ok r = true ->
  record_ok (fst (extend_phones (phones r') r)) = true.
Proof.
  unfold record_ok, extend_phones. cbn [fst set_phones phones birthday].
  rewrite !andb_true_iff, forallb_app, andb_true_iff. tauto.
Qed.

Lemma step_ok (o : op) (st : AddressBook * option (list json_entry)) :
  op_ok o = true ->
  book_ok (fst st) = true ->
  (snd st = None \/ exists b, book_ok b = true /\ snd st = Some (save_to_file b)) ->
  book_ok (fst (step st o)) = true /\
  (snd (step st o) = None \/
   exists b, book_ok b = true /\ snd (step st o) = Some (save_to_file b)).
Proof.
  destruct st as [book file]. cbn [fst snd]. intros Ho Hb Hf.
  unfold book_ok in Hb. apply andb_prop in Hb. destruct Hb as [Hinv Hr].
  assert (Hbook : book_ok book = true) by (unfold book_ok; now rewrite Hinv, Hr).
  destruct o as [r|n|n old_phone new_phone| |]; cbn [step fst snd op_ok] in *.
  - split; [|exact Hf]. unfold book_ok. rewrite (add_record_inv r book Hinv).
    cbn [andb]. unfold add_record, values.
    destruct (existsb _ _).
    + destruct (on_first _ _ _) as [[d out]|] eqn:E; [|exact Hr].
      cbn [fst data set_data].
      apply (on_first_forall record_ok _ _ _ _ _ (fun x => extend_phones_ok x r Ho) E Hr).
    + cbn [fst data set_data].
      assert (Hset : forall d, forallb (fun e => record_ok (snd e)) d = true ->
                forallb (fun e => record_ok (snd e)) (dict_set (name_value (name r)) r d) = true).
      { induction d as [|[k x] d IH]; cbn [dict_set forallb snd].
        - now rewrite Ho.
        - rewrite andb_true_iff. intros [Hx Hd].
          destruct (k =? name_value (name r))%string; cbn [forallb snd].
          + now rewrite Ho, Hd.
          + now rewrite Hx, IH. }
      now apply Hset.
  - split; [|exact Hf]. unfold book_ok. rewrite (delete_inv n book Hinv).
    cbn [andb]. unfold delete.
    destruct (List.find _ _) as [r|]; [|exact Hr].
    destruct (dict_has _ _); [|exact Hr]. cbn [fst data set_data].
    destruct (dict_remove_split (name_value (name r)) (data book))
      as [->|(d1 & x & d2 & E & ->)]; [exact Hr|].
    rewrite E in Hr. rewrite forallb_app in *. cbn [forallb] in Hr.
    rewrite !andb_true_iff in *. tauto.
  - split; [|exact Hf]. unfold book_ok.
    rewrite (change_phone_inv n old_phone new_phone book Hinv). cbn [andb].
    unfold change_phone.
    destruct (on_first _ _ _) as [[d out]|] eqn:E; [|exact Hr].
    cbn [fst data set_data].
    apply (on_first_forall record_ok _ _ _ _ _
             (fun r => edit_phone_ok old_phone new_phone r Ho) E Hr).
  - split; [exact Hbook|]. right. now exists book.
  - split; [|exact Hf]. destruct Hf as [->|(b & Hbk & ->)]; [exact Hbook|].
    unfold load_from_file.
    pose proof Hbk as Hbk'. unfold book_ok in Hbk'. apply andb_prop in Hbk'.
    destruct Hbk' as [Hinv' Hr'].
    destruct (book_inv_keys b Hinv') as [Hk Hn].
    unfold save_to_file, values.
    rewrite (load_entries_saved (data b) [] Hk Hr' Hn). cbn [fst app].
    revert Hbk. unfold book_ok, book_inv, one_per_name. now cbn [data set_data].
Qed.

Lemma run_keeps_book_ok (ops : list op) :
  forallb op_ok ops = true ->
  book_ok (fst (run ops (AddressBook_new, None))) = true.
Proof.
  assert (H : forall st,
    forallb op_ok ops = true -> book_ok (fst st) = true ->
    (snd st = None \/ exists b, book_ok b = true /\ snd st = Some (save_to_file b)) ->
    book_ok (fst (run ops st)) = true).
  { unfold run. induction ops as [|o ops IH]; intros st Ho Hb Hf; [exact Hb|].
    cbn [fold_left forallb] in *. apply andb_prop in Ho. destruct Ho as [Ho Hops].
    destruct (step_ok o st Ho Hb Hf). now apply IH. }
  intros Ho. apply H; [exact Ho|reflexivity|now left].
Qed.

Lemma comprehension_phones_ok (vs : list pyval) (ps : list Phone) :
  comprehension Phone_new vs = Ok ps ->
  forallb isinstance_str vs = true -> forallb phone_is_number ps = true.
Proof.
  revert ps. induction vs as [|v vs IH]; intros ps; cbn [comprehension forallb].
  - now intros [= <-].
  - rewrite Phone_new_format. destruct (phone_format v) eqn:Hf; [|discriminate].
    destruct (comprehension Phone_new vs) as [qs|]; [|discriminate].
    intros [= <-]. rewrite andb_true_iff. intros [Hv Hvs].
    cbn [forallb]. unfold phone_is_number at 1. cbn [phone_value].
    now rewrite Hv, Hf, (IH qs eq_refl Hvs).
Qed.

(** A record constructed from phones that are strings, with no birthday
    or one of the year 1000 or later, is a [record_ok] one. *)
Lemma Record_new_ok (n : string) (b : pyval) (ps : option (list pyval)) (r : record) :
  Record_new n b ps = Ok r ->
  match ps with Some vs => forallb isinstance_str vs | None => true end = true ->
  (forall bd, birthday r = Some bd -> 1000 <= year (birthday_value bd)) ->
  record_ok r = true.
Proof.
  unfold Record_new. intros H Hps Hy.
  destruct (if truthy b then _ else _) as [ob|] eqn:Eb; [|discriminate].
  destruct (match ps with Some (p :: l) => _ | _ => _ end) as [l|] eqn:El; [|discriminate].
  injection H as <-. unfold record_ok. cbn [phones birthday] in *.
  apply andb_true_intro. split.
  - destruct ps as [[|v vs]|]; try (injection El as <-; reflexivity).
    now apply (comprehension_phones_ok (v :: vs)).
  - destruct (truthy b); [|now injection Eb as <-].
    destruct (Birthday_new b) as [bd|] eqn:E; [|discriminate].
    injection Eb as <-. specialize (Hy bd eq_refl).
    destruct b as [|s|z]; try discriminate.
    rewrite Birthday_new_strptime in E.
    destruct (strptime_ymd (PyStr s)) as [t|[msg| | |]] eqn:Et; try discriminate.
    injection E as <-. apply strptime_ok_inv in Et. destruct Et as [Et Hv].
    unfold birthday_ok. cbn [birthday_value] in *. rewrite Hv, Et. cbn [year hour minute second microsecond midnight].
    apply andb_true_intro. split; [reflexivity|]. apply Z.leb_le. now rewrite Et in Hy.
Qed.

(* ================================================================== *)
(** * Further properties of the code *)

(** ** Record: add_phone, edit_phone, remove_phone, find_phone *)

Lemma add_phone_format (v : pyval) (r : record) :
  add_phone v r =
  if phone_format v
  then (set_phones (phones r ++ [mkPhone v]) r, Ok tt)
  else (r, Raise (ValueError "Invalid phone number format")).
Proof.
  unfold add_phone, bind, pure, get, put. rewrite Phone_new_format.
  now destruct (phone_format v).
Qed.

(** X1: [add_phone] validates before it appends: a value that is a
    phone is added at the end of the list, whether or not the list holds it
    already; any other value raises ValueError and the record is as it
    was. *)
Theorem add_phone_appends (v : pyval) (r : record) :
  add_phone v r =
  if phone_format v
  then (set_phones (phones r ++ [mkPhone v]) r, Ok tt)
  else (r, Raise (ValueError "Invalid phone number format")).
Proof. apply add_phone_format. Qed.

Lemma edit_phone_loop_at (old_phone new_phone : pyval) (ps1 ps2 : list Phone) (p : Phone) :
  (forall q, In q ps1 -> str_equals (str (phone_value q)) old_phone = false) ->
  str_equals (str (phone_value p)) old_phone = true ->
  edit_phone_loop old_phone new_phone (ps1 ++ p :: ps2) =
  (ps1 ++ fst (Phone_set_value new_phone p) :: ps2, snd (Phone_set_value new_phone p)).
Proof.
  intros H1 Hp. induction ps1 as [|q ps1 IH]; cbn [app edit_phone_loop].
  - rewrite Hp. now destruct (Phone_set_value new_phone p).
  - rewrite (H1 q) by now left.
    rewrite IH; [reflexivity|]. intros x Hx. apply H1. now right.
Qed.

(** X2: when some phone of the record has the old text and the new value
    is a phone, [edit_phone] raises nothing, puts the new value in the
    place of the first phone that has the old text, and leaves the name,
    the birthday, the phones before that place and the length of the list
    as they were. *)
Theorem edit_phone_replaces_first
        (old_phone new_phone : pyval) (r : record) (ps1 ps2 : list Phone) (p : Phone) :
  phones r = ps1 ++ p :: ps2 ->
  (forall q, In q ps1 -> str_equals (str (phone_value q)) old_phone = false) ->
  str_equals (str (phone_value p)) old_phone = true ->
  phone_format new_phone = true ->
  let r' := fst (edit_phone old_phone new_phone r) in
  snd (edit_phone old_phone new_phone r) = Ok tt /\
  name r' = name r /\ birthday r' = birthday r /\
  firstn (S (List.length ps1)) (phones r') = ps1 ++ [mkPhone new_phone] /\
  List.length (phones r') = List.length (phones r).
Proof.
  intros Hr H1 Hp Hf r'. subst r'. unfold edit_phone.
  rewrite Hr, edit_phone_loop_at, Phone_set_value_format, Hf by assumption.
  cbn [fst snd set_phones name birthday phones]. repeat split.
  - replace (S (List.length ps1)) with (List.length (ps1 ++ [mkPhone new_phone]))
      by (rewrite length_app; cbn; lia).
    change (ps1 ++ mkPhone new_phone :: ps2) with (ps1 ++ [mkPhone new_phone] ++ ps2).
    rewrite app_assoc, firstn_app, firstn_all, Nat.sub_diag. cbn. apply app_nil_r.
  - rewrite !length_app. reflexivity.
Qed.

Lemma edit_phone_replaces_first_witness :
  phones (fst (edit_phone (PyStr "1234567890") (PyStr "0987654321") alice)) =
  [mkPhone (PyStr "0987654321")].
Proof.
  exact (proj1 (proj2 (proj2 (proj2
    (edit_phone_replaces_first (PyStr "1234567890") (PyStr "0987654321") alice
       [] [] (mkPhone (PyStr "1234567890")) eq_refl
       (fun q F => match F with end) eq_refl eq_refl))))).
Defined.

Lemma phones_kept_all (object_str : nat -> string) (phone : pyval) (ps : list Phone) (i : nat) :
  (forall j, str_equals (object_str j) phone = false) ->
  phones_kept object_str phone i ps = ps /\ phones_found object_str phone i ps = [].
Proof.
  intros H. revert i. induction ps as [|p ps IH]; intros i; cbn; [easy|].
  rewrite H. cbn. destruct (IH (S i)) as [-> ->]. easy.
Qed.

(** X3: the text [str] gives for a phone object begins with an angle
    bracket, so for an argument that does not (a number, any text of
    digits, or a value that is no string) [remove_phone] removes nothing
    and [find_phone] returns [None], even when the record holds that
    number. *)
Theorem remove_phone_find_phone_by_number
        (object_str : nat -> string) (phone : pyval) (r : record) :
  (forall i, prefix "<" (object_str i) = true) ->
  prefix "<" (str phone) = false ->
  remove_phone object_str phone r = (r, Ok tt) /\
  find_phone object_str phone r = PyNone.
Proof.
  intros Hobj Hphone.
  assert (H : forall j, str_equals (object_str j) phone = false).
  { intros j. destruct phone as [|s|n]; try reflexivity. cbn in *.
    destruct (String.eqb_spec (object_str j) s) as [E|]; [|reflexivity].
    rewrite <- E, Hobj in Hphone. discriminate. }
  unfold remove_phone, find_phone.
  destruct (phones_kept_all object_str phone (phones r) 0 H) as [-> ->].
  now rewrite set_phones_same.
Qed.

Lemma remove_phone_find_phone_by_number_witness :
  let object_str := fun _ : nat => "<__main__.Phone object at 0x7f3c5a1d2e50>" in
  remove_phone object_str (PyStr "1234567890") alice = (alice, Ok tt) /\
  find_phone object_str (PyStr "1234567890") alice = PyNone.
Proof.
  intros object_str.
  exact (remove_phone_find_phone_by_number object_str (PyStr "1234567890") alice
           (fun _ => eq_refl) eq_refl).
Defined.

(** ** AddressBook: add_record, find, delete *)

Lemma find_at (p : record -> bool) (d1 d2 : dict) (k : string) (x : record) :
  (forall e, In e d1 -> p (snd e) = false) -> p x = true ->
  List.find p (map snd (d1 ++ (k, x) :: d2)) = Some x.
Proof.
  intros H Hx. induction d1 as [|[k1 x1] d1 IH]; cbn.
  - now rewrite Hx.
  - pose proof (H (k1, x1) (or_introl eq_refl)) as Hk. cbn in Hk. rewrite Hk.
    apply IH. intros e He. apply H. now right.
Qed.

Lemma find_none (p : record -> bool) (d : dict) :
  (forall e, In e d -> p (snd e) = false) -> List.find p (map snd d) = None.
Proof.
  intros H. induction d as [|[k x] d IH]; cbn; [reflexivity|].
  pose proof (H (k, x) (or_introl eq_refl)) as Hk. cbn in Hk. rewrite Hk.
  apply IH. intros e He. apply H. now right.
Qed.

Lemma existsb_none (p : record -> bool) (d : dict) :
  (forall e, In e d -> p (snd e) = false) -> existsb p (map snd d) = false.
Proof.
  intros H. induction d as [|[k x] d IH]; cbn; [reflexivity|].
  pose proof (H (k, x) (or_introl eq_refl)) as Hk. cbn in Hk. rewrite Hk.
  apply IH. intros e He. apply H. now right.
Qed.

Lemma existsb_at (p : record -> bool) (d1 d2 : dict) (k : string) (x : record) :
  p x = true -> existsb p (map snd (d1 ++ (k, x) :: d2)) = true.
Proof.
  intros Hx. rewrite map_app, existsb_app. cbn. rewrite Hx. apply orb_true_r.
Qed.

(** [d[key] = v] puts [v] somewhere among the entries that were there. *)
Lemma dict_set_split (key : string) (v : record) (d : dict) :
  exists d1 k d2, dict_set key v d = d1 ++ (k, v) :: d2 /\
                  (forall e, In e d1 -> In e d).
Proof.
  induction d as [|[k x] d IH]; cbn.
  - exists [], key, []. split; [reflexivity | intros e []].
  - destruct (k =? key)%string.
    + exists [], k, d. split; [reflexivity | intros e []].
    + destruct IH as (d1 & k' & d2 & -> & H).
      exists ((k, x) :: d1), k', d2. split; [reflexivity|].
      intros e [<-|He]; [now left | right; now apply H].
Qed.

Lemma add_record_returns (r : record) (self : AddressBook) :
  snd (add_record r self) = Ok tt.
Proof.
  unfold add_record, values.
  destruct (first_split (name_is (lower (name_value (name r)))) (data self))
    as [Hnone|(d1 & k & x & d2 & -> & H1 & Hx)].
  - now rewrite existsb_none.
  - rewrite existsb_at, on_first_at by assumption. reflexivity.
Qed.

Lemma find_add_record (r : record) (self : AddressBook) (n : string) :
  lower n = lower (name_value (name r)) ->
  exists r', find (fst (add_record r self)) n = Some r' /\
             lower (name_value (name r')) = lower n /\
             exists before, phones r' = before ++ phones r.
Proof.
  intros Hn. unfold find, add_record, values. rewrite Hn.
  destruct (first_split (name_is (lower (name_value (name r)))) (data self))
    as [Hnone|(d1 & k & x & d2 & -> & H1 & Hx)].
  - rewrite existsb_none by assumption. cbn [fst data set_data].
    destruct (dict_set_split (name_value (name r)) r (data self)) as (d1 & k & d2 & -> & H).
    exists r. split; [|split].
    + apply find_at.
      * intros e He. apply Hnone. now apply H.
      * unfold name_is. apply String.eqb_refl.
    + reflexivity.
    + now exists [].
  - rewrite existsb_at, on_first_at by assumption. cbn [fst snd data set_data extend_phones].
    exists (set_phones (phones x ++ phones r) x). split; [|split].
    + apply find_at; assumption.
    + unfold name_is in Hx. now apply String.eqb_eq in Hx.
    + now exists (phones x).
Qed.

(** X4: [add_record] raises nothing and touches one place of the dict.
    When some record has the name up to case, the first such record gets
    the phones of the new one after its own and nothing else changes (its
    key, name and birthday stay, the new record's are dropped); when none
    has it, in a dict keyed by names, the new record is appended under its
    name. *)
Theorem add_record_merges_or_appends (r : record) (self : AddressBook) :
  let lowered := lower (name_value (name r)) in
  snd (add_record r self) = Ok tt /\
  (forall d1 k x d2,
     data self = d1 ++ (k, x) :: d2 ->
     (forall e, In e d1 -> name_is lowered (snd e) = false) ->
     name_is lowered x = true ->
     fst (add_record r self) =
     set_data (d1 ++ (k, set_phones (phones x ++ phones r) x) :: d2) self) /\
  ((forall e, In e (data self) -> name_is lowered (snd e) = false) ->
   keyed_by_name (data self) = true ->
   fst (add_record r self) =
   set_data (data self ++ [(name_value (name r), r)]) self).
Proof.
  intros lowered. subst lowered. split; [apply add_record_returns|].
  unfold add_record, values. split.
  - intros d1 k x d2 -> H1 Hx.
    rewrite existsb_at, on_first_at by assumption. reflexivity.
  - intros Hnone Hk. rewrite existsb_none by assumption. cbn [fst].
    rewrite dict_set_fresh; [reflexivity|].
    intros Hin. apply in_map_iff in Hin. destruct Hin as (e & He1 & He).
    apply keyed_by_name_Forall in Hk. rewrite Forall_forall in Hk.
    specialize (Hk e He). specialize (Hnone e He). unfold name_is in Hnone.
    rewrite <- Hk, He1, String.eqb_refl in Hnone. discriminate.
Qed.

Lemma add_record_merges_or_appends_witness :
  fst (add_record (mkRecord (mkName "BOB") None [mkPhone (PyStr "0987654321")])
                  alice_and_bob) =
  set_data [("Alice", alice);
            ("Bob", set_phones [mkPhone (PyStr "5552223333"); mkPhone (PyStr "0987654321")] bob)]
           alice_and_bob.
Proof.
  destruct (add_record_merges_or_appends
              (mkRecord (mkName "BOB") None [mkPhone (PyStr "0987654321")])
              alice_and_bob) as (_ & H & _).
  refine (H [("Alice", alice)] "Bob" bob [] eq_refl _ eq_refl).
  intros e [<-|[]]. reflexivity.
Defined.

(** X5: after [add_record], [find] by the name of the record added, in
    any case, returns a record of that name whose phones end with the
    phones of the record added. *)
Theorem find_after_add_record (r : record) (self : AddressBook) (n : string) :
  lower n = lower (name_value (name r)) ->
  exists r', find (fst (add_record r self)) n = Some r' /\
             lower (name_value (name r')) = lower n /\
             exists before, phones r' = before ++ phones r.
Proof. apply find_add_record. Qed.

Lemma find_after_add_record_witness :
  exists r', find (fst (add_record alice AddressBook_new)) "ALICE" = Some r' /\
             lower (name_value (name r')) = lower "ALICE" /\
             exists before, phones r' = before ++ phones alice.
Proof. exact (find_after_add_record alice AddressBook_new "ALICE" eq_refl). Defined.

Lemma dict_remove_at (k : string) (x : record) (d1 d2 : dict) :
  ~ In k (map fst d1) -> dict_remove k (d1 ++ (k, x) :: d2) = d1 ++ d2.
Proof.
  induction d1 as [|[k1 x1] d1 IH]; cbn; intros H.
  - now rewrite String.eqb_refl.
  - destruct (String.eqb_spec k1 k) as [->|_]; [tauto|].
    rewrite IH by tauto. reflexivity.
Qed.

Lemma filter_none_dropped (p : record -> bool) (d : dict) :
  (forall e, In e d -> p (snd e) = false) ->
  filter (fun e => negb (p (snd e))) d = d.
Proof.
  intros H. induction d as [|e d IH]; cbn; [reflexivity|].
  rewrite (H e) by now left. cbn. rewrite IH; [reflexivity|].
  intros x Hx. apply H. now right.
Qed.

(** X6: in a book that keeps one record per name, each under its name,
    [delete] raises nothing and removes exactly the record of that name
    up to case, if there is one: the other records stay, in order, and
    [find] by that name then returns [None]. *)
Theorem delete_removes_the_record (n : string) (self : AddressBook) :
  book_inv self = true ->
  delete n self =
    (set_data (filter (fun e => negb (name_is (lower n) (snd e))) (data self)) self,
     Ok tt) /\
  find (fst (delete n self)) n = None.
Proof.
  intros Hinv.
  assert (E : delete n self =
    (set_data (filter (fun e => negb (name_is (lower n) (snd e))) (data self)) self,
     Ok tt)).
  { destruct (book_inv_keys self Hinv) as [Hk Hkeys].
    unfold book_inv, one_per_name in Hinv. apply andb_prop in Hinv.
    destruct Hinv as [_ Hd]. apply distinct_NoDup in Hd.
    unfold delete, values.
    destruct (first_split (name_is (lower n)) (data self))
      as [Hnone|(d1 & k & x & d2 & Hdata & H1 & Hx)].
    - rewrite find_none, filter_none_dropped by assumption.
      now rewrite set_data_same.
    - rewrite Hdata in *. rewrite find_at by assumption.
      apply keyed_by_name_Forall in Hk. rewrite Forall_forall in Hk.
      pose proof (Hk (k, x) ltac:(apply in_or_app; right; now left)) as Ek.
      cbn [fst snd] in Ek. subst k.
      replace (dict_has _ _) with true
        by (symmetry; apply dict_has_In; rewrite map_app; apply in_or_app;
            right; now left).
      rewrite map_app in Hkeys. cbn [map fst] in Hkeys.
      rewrite dict_remove_at by (now apply NoDup_remove_2 in Hkeys;
                                 intros F; apply Hkeys, in_or_app; left).
      rewrite filter_app. cbn [filter snd]. rewrite Hx. cbn [negb].
      rewrite !filter_none_dropped; [reflexivity| |exact H1].
      intros e He. unfold name_is. apply String.eqb_neq. intros Ee.
      unfold lowered_names in Hd. rewrite map_app in Hd. cbn [map snd] in Hd.
      apply NoDup_remove_2 in Hd. apply Hd, in_or_app. right.
      apply in_map_iff. exists e. split; [|exact He].
      unfold name_is in Hx. apply String.eqb_eq in Hx. now rewrite Ee, Hx. }
  split; [exact E|]. rewrite E. unfold find, values. cbn [fst data set_data].
  apply find_none. intros e He. apply filter_In in He. destruct He as [_ He].
  now apply negb_true_iff in He.
Qed.

Lemma delete_removes_the_record_witness :
  delete "ALICE" alice_and_bob = (set_data [("Bob", bob)] alice_and_bob, Ok tt) /\
  find (fst (delete "ALICE" alice_and_bob)) "ALICE" = None.
Proof. exact (delete_removes_the_record "ALICE" alice_and_bob eq_refl). Defined.

(** ** AddressBook: search *)

Lemma prefix_app (q s : string) :
  prefix q s = true <-> exists c, s = (q ++ c)%string.
Proof.
  revert s. induction q as [|a q IH]; intros s.
  - split; [intros _; now exists s | intros _; now destruct s].
  - destruct s as [|b s]; cbn [prefix append].
    + split; [discriminate | intros [c [=]]].
    + destruct (Ascii.ascii_dec a b) as [->|Hab].
      * rewrite IH. split; intros [c Hc]; exists c; [now subst | now injection Hc].
      * split; [discriminate | intros [c [= E _]]; congruence].
Qed.

(** [str_in] is the substring test. *)
Lemma str_in_app (q s : string) :
  str_in q s = true <-> exists a c, s = (a ++ q ++ c)%string.
Proof.
  induction s as [|b s IH]; cbn [str_in]; rewrite orb_true_iff, prefix_app.
  - split.
    + intros [[c Hc]|]; [|discriminate]. now exists "", c.
    + intros (a & c & H). left. destruct a; [now exists c | discriminate].
  - rewrite IH. split.
    + intros [[c Hc]|(a & c & Hc)]; [now exists "", c|].
      exists (String b a), c. cbn. now rewrite Hc.
    + intros (a & c & H). destruct a as [|b' a]; [left; now exists c|].
      right. injection H as _ H. now exists a, c.
Qed.

Lemma lower_app (a b : string) : lower (a ++ b) = (lower a ++ lower b)%string.
Proof. induction a as [|c a IH]; cbn; [reflexivity | now rewrite IH]. Qed.

(** X7: [search] returns, in the order of the book, the display strings
    of exactly the records that hold the query: a display string is
    returned if and only if it is that of a record of the book whose
    lowered name has the lowered query as a substring, or one of whose
    phones has it as a substring of its text; so a contact is found by any
    part of its name in any case, and by any part of a number. *)
Theorem search_substring (self : AddressBook) (query x : string) :
  In x (search self query) <->
  exists r, In r (values self) /\ x = Record_str r /\
    ((exists a c, lower (name_value (name r)) = (a ++ lower query ++ c)%string) \/
     (exists phone a c, In phone (phones r) /\
                        str (phone_value phone) = (a ++ lower query ++ c)%string)).
Proof.
  unfold search. rewrite in_map_iff. split.
  - intros (r & <- & Hr). apply filter_In in Hr. destruct Hr as [Hr Hm].
    exists r. split; [exact Hr|]. split; [reflexivity|].
    apply orb_true_iff in Hm. destruct Hm as [Hm|Hm].
    + left. now apply str_in_app.
    + right. apply existsb_exists in Hm. destruct Hm as (phone & Hp & Hm).
      apply str_in_app in Hm. destruct Hm as (a & c & Hm). now exists phone, a, c.
  - intros (r & Hr & -> & Hm). exists r. split; [reflexivity|].
    apply filter_In. split; [exact Hr|]. apply orb_true_iff.
    destruct Hm as [Hm|(phone & a & c & Hp & Hm)].
    + left. now apply str_in_app.
    + right. apply existsb_exists. exists phone. split; [exact Hp|].
      apply str_in_app. now exists a, c.
Qed.

Lemma search_substring_witness :
  In (Record_str alice) (search alice_and_bob "LIC") /\
  In (Record_str alice) (search alice_and_bob "234") /\
  ~ In (Record_str bob) (search alice_and_bob "234").
Proof.
  split; [|split].
  - apply (proj2 (search_substring alice_and_bob "LIC" (Record_str alice))).
    exists alice. split; [now left|]. split; [reflexivity|].
    left. now exists "a", "e".
  - apply (proj2 (search_substring alice_and_bob "234" (Record_str alice))).
    exists alice. split; [now left|]. split; [reflexivity|].
    right. exists (mkPhone (PyStr "1234567890")), "1", "567890".
    split; [now left | reflexivity].
  - intros [H|[]]. discriminate.
Defined.

(** ** AddressBook: the pages *)

Lemma get_page_firstn (self : AddressBook) (p : Z) :
  page_size self = 5 -> 1 <= p ->
  get_page self p = firstn 5 (skipn (Z.to_nat ((p - 1) * 5)) (values self)).
Proof.
  intros Hs Hp. unfold get_page. rewrite Hs, slice_nonneg by lia.
  now replace (Z.to_nat ((p - 1) * 5 + 5 - (p - 1) * 5)) with 5%nat by lia.
Qed.

Lemma firstn_add {A} (n m : nat) (l : list A) :
  firstn (n + m) l = firstn n l ++ firstn m (skipn n l).
Proof.
  revert l. induction n as [|n IH]; intros l; [reflexivity|].
  destruct l as [|x l]; cbn; [now rewrite firstn_nil | now rewrite IH].
Qed.

(** X8: with the page size 5, the pages 1 to k, one after the other, are
    the first 5k records of the book: no record is skipped or shown
    twice, and once 5k reaches the number of records the pages hold them
    all. *)
Theorem pages_tile (self : AddressBook) (k : nat) :
  page_size self = 5 ->
  List.concat (map (fun i => get_page self (Z.of_nat i)) (seq 1 k)) =
    firstn (5 * k) (values self) /\
  ((List.length (values self) <= 5 * k)%nat ->
   List.concat (map (fun i => get_page self (Z.of_nat i)) (seq 1 k)) = values self).
Proof.
  intros Hs.
  assert (E : List.concat (map (fun i => get_page self (Z.of_nat i)) (seq 1 k)) =
              firstn (5 * k) (values self)).
  { induction k as [|k IH]; [reflexivity|].
    rewrite seq_S, map_app, concat_app, IH. cbn [map List.concat Nat.add].
    rewrite app_nil_r, get_page_firstn by lia.
    replace (Z.to_nat ((Z.of_nat (S k) - 1) * 5)) with (5 * k)%nat by lia.
    replace (5 * S k)%nat with (5 * k + 5)%nat by lia.
    now rewrite firstn_add. }
  split; [exact E|]. intros Hl. rewrite E. now apply firstn_all2.
Qed.

Lemma pages_tile_witness :
  List.concat (map (fun i => get_page alice_and_bob (Z.of_nat i)) (seq 1 1)) = [alice; bob].
Proof. exact (proj1 (pages_tile alice_and_bob 1 eq_refl)). Defined.

(** X9: page numbers below 1 raise nothing either: page 0 is empty, and a
    negative page is counted from the end of the book, as a slice with
    negative bounds is: it holds the records from position
    [max(N + 5(p-1), 0)] up to position [max(N + 5p, 0)], N being the number
    of records. *)
Theorem get_page_below_one (self : AddressBook) (p : Z) :
  page_size self = 5 -> p <= 0 ->
  let N := Z.of_nat (List.length (values self)) in
  (p = 0 -> get_page self p = []) /\
  (p < 0 ->
   get_page self p =
   firstn (Z.to_nat (Z.max (N + 5 * p) 0 - Z.max (N + 5 * (p - 1)) 0))
          (skipn (Z.to_nat (Z.max (N + 5 * (p - 1)) 0)) (values self))).
Proof.
  intros Hs Hp N. unfold get_page, slice. rewrite Hs. fold N.
  assert (HN : 0 <= N) by (subst N; lia). split.
  - intros ->. change ((0 - 1) * 5) with (-5). change (-5 + 5) with 0.
    change (-5 <? 0) with true. change (0 <? 0) with false. cbv iota.
    replace (Z.to_nat (Z.min 0 N - Z.max (-5 + N) 0)) with 0%nat by lia.
    reflexivity.
  - intros Hneg.
    replace ((p - 1) * 5 <? 0) with true by (symmetry; apply Z.ltb_lt; lia).
    replace ((p - 1) * 5 + 5 <? 0) with true by (symmetry; apply Z.ltb_lt; lia).
    replace ((p - 1) * 5 + 5 + N) with (N + 5 * p) by lia.
    replace ((p - 1) * 5 + N) with (N + 5 * (p - 1)) by lia. reflexivity.
Qed.

Lemma get_page_below_one_witness :
  get_page alice_and_bob 0 = [] /\ get_page alice_and_bob (-1) = [].
Proof.
  split.
  - exact (proj1 (get_page_below_one alice_and_bob 0 eq_refl ltac:(lia)) eq_refl).
  - exact (proj2 (get_page_below_one alice_and_bob (-1) eq_refl ltac:(lia)) eq_refl).
Defined.

(** ** The commands *)

Lemma add_record_cursor (r : record) (self : AddressBook) :
  page_size (fst (add_record r self)) = page_size self /\
  current_page (fst (add_record r self)) = current_page self.
Proof.
  unfold add_record. destruct (existsb _ _); [|now split].
  destruct (on_first _ _ _) as [[d out]|]; now split.
Qed.

Lemma step_cursor (o : op) (st : AddressBook * option (list json_entry)) :
  page_size (fst (step st o)) = page_size (fst st) /\
  current_page (fst (step st o)) = current_page (fst st).
Proof.
  destruct st as [book file]. destruct o; cbn [step fst].
  - apply add_record_cursor.
  - unfold delete. destruct (List.find _ _); [|now split].
    destruct (dict_has _ _); now split.
  - unfold change_phone. destruct (on_first _ _ _) as [[d out]|]; now split.
  - now split.
  - unfold load_from_file. destruct file as [entries|]; [|now split].
    destruct (load_entries _ _); now split.
Qed.

Lemma run_cursor (ops : list op) (st : AddressBook * option (list json_entry)) :
  page_size (fst (run ops st)) = page_size (fst st) /\
  current_page (fst (run ops st)) = current_page (fst st).
Proof.
  unfold run. revert st. induction ops as [|o ops IH]; intros st; [now split|].
  cbn [fold_left]. destruct (IH (step st o)) as [-> ->]. apply step_cursor.
Qed.

(** X10: no operation of the book moves its page cursor or changes its
    page size, so whatever has been added, deleted, changed, saved or
    loaded since the book was created, [show_all] answers with the heading
    of page 1 and the display strings of the first five records: the
    records after the fifth are never shown by it. *)
Theorem show_all_first_page (repr : string -> string) (ops : list op)
        (file : option (list json_entry)) :
  let book := fst (run ops (AddressBook_new, file)) in
  page_size book = 5 /\ current_page book = 1 /\
  Commands.show_all repr book =
  (book, Commands.Return
           ("Page 1:" ++ Commands.newline ++
            join Commands.newline (map Record_str (firstn 5 (values book)))))%string.
Proof.
  intros book. destruct (run_cursor ops (AddressBook_new, file)) as [Hs Hc].
  fold book in Hs, Hc. cbn in Hs, Hc. repeat split; [exact Hs | exact Hc |].
  unfold Commands.show_all, Commands.input_error, Commands.show_all_body.
  rewrite Hc, get_page_firstn by (exact Hs || lia). reflexivity.
Qed.

Lemma add_phone_name (v : pyval) (r : record) : name (fst (add_phone v r)) = name r.
Proof.
  unfold add_phone, bind, pure, get, put. now destruct (Phone_new v).
Qed.

(** X11: [add_contact] with a value that is not a phone leaves the book
    as it was; when the contact exists, or when a record can be made of
    the name and birthday given, its answer is the error line of the
    phone format. *)
Theorem add_contact_invalid_phone (repr : string -> string) (name_ : string)
        (phone birthday_ : pyval) (contacts : AddressBook) :
  phone_format phone = false ->
  fst (Commands.add_contact repr name_ phone birthday_ contacts) = contacts /\
  (find contacts name_ <> None \/ is_ok (Record_new name_ birthday_ None) = true ->
   Commands.add_contact repr name_ phone birthday_ contacts =
   (contacts, Commands.Return "Error: Invalid phone number format")).
Proof.
  intros Hf. unfold Commands.add_contact, Commands.input_error, Commands.add_contact_body.
  destruct (first_split (name_is (lower name_)) (data contacts))
    as [Hnone|(d1 & k & x & d2 & Hd & H1 & Hx)].
  - rewrite on_first_none by assumption.
    destruct (Record_new name_ birthday_ None) as [record|e] eqn:Er.
    + rewrite add_phone_format, Hf. split; [reflexivity|]. reflexivity.
    + split; [now destruct e|]. intros [Hfind|Hok]; [|discriminate].
      exfalso. apply Hfind. unfold find, values. now apply find_none.
  - rewrite Hd, on_first_at by assumption. rewrite add_phone_format, Hf.
    cbn [fst snd]. rewrite <- Hd, set_data_same. split; reflexivity.
Qed.

Lemma add_contact_invalid_phone_witness :
  Commands.add_contact (fun s => s) "alice" (PyStr "12345") PyNone alice_and_bob =
  (alice_and_bob, Commands.Return "Error: Invalid phone number format").
Proof.
  apply (proj2 (add_contact_invalid_phone (fun s => s) "alice" (PyStr "12345") PyNone
                  alice_and_bob eq_refl)).
  left. discriminate.
Defined.



(** X13: [delete_contact] answers "Contact <name> deleted" whether or not
    the book held such a contact (in a book keyed by names [delete] never
    raises), and when it held none the book is as it was; a command line
    with no name is answered with the error line of the index. *)
Theorem delete_contact_answers (repr : string -> string) (command_ : list string)
        (contacts : AddressBook) :
  keyed_by_name (data contacts) = true ->
  (nth_error command_ 1 = None ->
   Commands.delete_contact repr command_ contacts =
   (contacts, Commands.Return "Error: list index out of range")) /\
  (forall name_, nth_error command_ 1 = Some name_ ->
     Commands.delete_contact repr command_ contacts =
     (fst (delete name_ contacts),
      Commands.Return ("Contact " ++ name_ ++ " deleted")%string) /\
     (find contacts name_ = None -> fst (delete name_ contacts) = contacts)).
Proof.
  intros Hk. unfold Commands.delete_contact, Commands.input_error,
    Commands.delete_contact_body. split.
  - now intros ->.
  - intros name_ ->.
    assert (Hd : snd (delete name_ contacts) = Ok tt).
    { unfold delete, values.
      destruct (first_split (name_is (lower name_)) (data contacts))
        as [Hnone|(d1 & k & x & d2 & Hd & H1 & Hx)].
      - now rewrite find_none.
      - rewrite Hd, find_at by assumption. rewrite <- Hd.
        apply keyed_by_name_Forall in Hk. rewrite Forall_forall in Hk.
        pose proof (Hk (k, x) ltac:(rewrite Hd; apply in_or_app; right; now left)) as Ek.
        cbn [fst snd] in Ek.
        replace (dict_has _ _) with true; [reflexivity|].
        symmetry. apply dict_has_In. rewrite Hd, map_app. apply in_or_app.
        right. left. exact Ek. }
    split.
    + destruct (delete name_ contacts) as [c out]. cbn [fst snd] in *. now subst out.
    + unfold find, delete. intros Hfind. now rewrite Hfind.
Qed.

Lemma delete_contact_answers_witness :
  Commands.delete_contact (fun s => s) ["delete"; "zed"] alice_and_bob =
  (alice_and_bob, Commands.Return "Contact zed deleted").
Proof.
  exact (proj1 (proj2 (delete_contact_answers (fun s => s) ["delete"; "zed"]
                         alice_and_bob eq_refl) "zed" eq_refl)).
Defined.

(** X14: the command [change_phone] edits the first phone of the contact.
    With no contact of that name, with a contact that has no phone, with a
    first phone that holds no string, or with a new value that is not a
    phone, it answers with an error line (contact not found; list index
    out of range; phone number does not exist; invalid phone number
    format) and the book is as it was.  With a first phone that holds a
    string and a new value that is a phone, it puts the new value in the
    first place of the contact's phones, keeps the contact's key, name,
    birthday and number of phones and every other contact, and answers
    "Phone number for <name> changed to <phone>". *)
Theorem change_phone_command (repr : string -> string) (name_ : string)
        (new_phone : pyval) (contacts : AddressBook) :
  (find contacts name_ = None ->
   Commands.change_phone repr name_ new_phone contacts =
   (contacts, Commands.Return ("Error: Contact " ++ name_ ++ " not found")%string)) /\
  (forall d1 k x d2,
     data contacts = d1 ++ (k, x) :: d2 ->
     (forall e, In e d1 -> name_is (lower name_) (snd e) = false) ->
     name_is (lower name_) x = true ->
     (phones x = [] ->
      Commands.change_phone repr name_ new_phone contacts =
      (contacts, Commands.Return "Error: list index out of range")) /\
     (forall first rest, phones x = first :: rest ->
        isinstance_str (phone_value first) = false ->
        Commands.change_phone repr name_ new_phone contacts =
        (contacts, Commands.Return "Error: Phone number does not exist in the record")) /\
     (forall first rest, phones x = first :: rest ->
        isinstance_str (phone_value first) = true ->
        phone_format new_phone = false ->
        Commands.change_phone repr name_ new_phone contacts =
        (contacts, Commands.Return "Error: Invalid phone number format")) /\
     (forall first rest, phones x = first :: rest ->
        isinstance_str (phone_value first) = true ->
        phone_format new_phone = true ->
        exists x',
          Commands.change_phone repr name_ new_phone contacts =
          (set_data (d1 ++ (k, x') :: d2) contacts,
           Commands.Return
             ("Phone number for " ++ name_ ++ " changed to " ++ str new_phone)%string) /\
          name x' = name x /\ birthday x' = birthday x /\
          hd_error (phones x') = Some (mkPhone new_phone) /\
          List.length (phones x') = List.length (phones x))).
Proof.
  unfold Commands.change_phone, Commands.input_error, Commands.change_phone_body.
  split.
  - now intros ->.
  - intros d1 k x d2 Hd H1 Hx.
    assert (Hfind : find contacts name_ = Some x)
      by (unfold find, values; rewrite Hd; now apply find_at).
    rewrite Hfind. split; [|split; [|split]].
    + now intros ->.
    + intros first rest Hp Hs. rewrite Hp, Hd, on_first_at by assumption.
      unfold edit_phone. rewrite edit_phone_loop_absent.
      * cbn [fst snd]. now rewrite set_phones_same, <- Hd, set_data_same.
      * intros q _. now destruct (phone_value first).
    + intros first rest Hp Hs Hf. rewrite Hp, Hd, on_first_at by assumption.
      rewrite edit_phone_invalid_new; [|rewrite Hp; cbn [existsb]|exact Hf].
      * cbn [fst snd]. now rewrite <- Hd, set_data_same.
      * destruct (phone_value first); try discriminate. cbn. now rewrite String.eqb_refl.
    + intros first rest Hp Hs Hf. rewrite Hp, Hd, on_first_at by assumption.
      assert (Hm : str_equals (str (phone_value first)) (phone_value first) = true).
      { destruct (phone_value first); try discriminate. cbn. apply String.eqb_refl. }
      unfold edit_phone. rewrite Hp.
      rewrite (edit_phone_loop_at _ _ [] rest first (fun q F => match F with end) Hm).
      rewrite Phone_set_value_format, Hf. cbn [fst snd app].
      eexists. split; [reflexivity|]. cbn [set_phones name birthday phones]. repeat split.
Qed.

Lemma change_phone_command_witness :
  Commands.change_phone (fun s => s) "ALICE" (PyStr "12") alice_and_bob =
  (alice_and_bob, Commands.Return "Error: Invalid phone number format").
Proof.
  destruct (change_phone_command (fun s => s) "ALICE" (PyStr "12") alice_and_bob)
    as (_ & H).
  destruct (H [] "Alice" alice [("Bob", bob)] eq_refl (fun e F => match F with end) eq_refl)
    as (_ & _ & H3 & _).
  exact (H3 (mkPhone (PyStr "1234567890")) [] eq_refl eq_refl eq_refl).
Defined.

(** ** days_to_birthday: the value it returns *)

Lemma month_cases (m : Z) :
  1 <= m <= 12 ->
  m = 1 \/ m = 2 \/ m = 3 \/ m = 4 \/ m = 5 \/ m = 6 \/
  m = 7 \/ m = 8 \/ m = 9 \/ m = 10 \/ m = 11 \/ m = 12.
Proof. lia. Qed.

Lemma days_before_month_formula (y m : Z) :
  1 <= m <= 12 ->
  days_before_month y m =
  days_before_month_common m + (if 2 <? m then leap_day y else 0).
Proof.
  intros Hm. unfold leap_day.
  destruct (month_cases m Hm) as [->|[->|[->|[->|[->|[->|[->|[->|[->|[->|[->| ->]]]]]]]]]]];
    unfold days_before_month, days_in_month; cbn; destruct (is_leap y); reflexivity.
Qed.

Lemma leap_day_range (y : Z) : 0 <= leap_day y <= 1.
Proof. unfold leap_day. destruct (is_leap y); lia. Qed.

Lemma days_before_year_succ (y : Z) :
  days_before_year (y + 1) = days_before_year y + 365 + leap_day y.
Proof.
  unfold days_before_year, leap_day, is_leap. replace (y + 1 - 1) with y by lia.
  cbv zeta.
  destruct (Z.eqb_spec (y mod 4) 0), (Z.eqb_spec (y mod 100) 0),
    (Z.eqb_spec (y mod 400) 0); cbn [andb orb negb];
    Z.to_euclidean_division_equations; lia.
Qed.

Ltac eval_month_table :=
  repeat match goal with
         | |- context [days_before_month_common ?k] =>
             let v := eval vm_compute in (days_before_month_common k) in
             change (days_before_month_common k) with v
         | |- context [?a <? ?b] =>
             let v := eval vm_compute in (a <? b) in
             change (a <? b) with v
         end.

(** The day of the year of a valid date lies within the year. *)
Lemma day_of_year_range (y m d : Z) :
  valid_date y m d = true ->
  1 <= days_before_month y m + d <= 365 + leap_day y.
Proof.
  unfold valid_date, between. rewrite !andb_true_iff, !Z.leb_le.
  intros [[[Hy1 Hy2] [Hm1 Hm2]] [Hd1 Hd2]].
  rewrite days_before_month_formula by lia.
  pose proof (leap_day_range y) as Hl. revert Hd2. unfold leap_day in *.
  destruct (month_cases m (conj Hm1 Hm2))
    as [->|[->|[->|[->|[->|[->|[->|[->|[->|[->|[->| ->]]]]]]]]]]];
    unfold days_in_month; cbn [Z.eqb Pos.eqb orb]; eval_month_table; cbv iota;
    destruct (is_leap y); lia.
Qed.

(** A month and day that are a date of some year, February 29th apart,
    are a date of every year. *)
Lemma valid_date_any_year (y0 y m d : Z) :
  valid_date y0 m d = true -> negb ((m =? 2) && (d =? 29)) = true ->
  1 <= y <= 9999 -> valid_date y m d = true.
Proof.
  unfold valid_date, between, days_in_month.
  rewrite !andb_true_iff, !Z.leb_le, negb_true_iff.
  intros [[_ [Hm1 Hm2]] [Hd1 Hd2]] Hfeb Hy.
  destruct (Z.eqb_spec m 2) as [->|Hm].
  - cbn [andb] in Hfeb. apply Z.eqb_neq in Hfeb.
    repeat split; try lia. destruct (is_leap y0), (is_leap y); lia.
  - repeat split; try lia.
Qed.

Lemma time_of_day_range (t : datetime) :
  valid_datetime t = true -> 0 <= time_of_day t < us_per_day.
Proof.
  unfold valid_datetime, between, time_of_day, us_per_day.
  rewrite !andb_true_iff, !Z.leb_le. lia.
Qed.

Lemma whole_days (D tod : Z) :
  0 <= tod < us_per_day ->
  (D * us_per_day - tod) / us_per_day = if tod =? 0 then D else D - 1.
Proof.
  unfold us_per_day. intros H. destruct (Z.eqb_spec tod 0) as [->|Hz].
  - rewrite Z.sub_0_r. apply Z.div_mul. lia.
  - symmetry. apply (Z.div_unique _ _ _ (86400 * 1000000 - tod)); lia.
Qed.

Lemma sub_days_midnight (y m d : Z) (now : datetime) :
  0 <= time_of_day now < us_per_day ->
  sub_days (midnight y m d) now =
  if time_of_day now =? 0 then ymd2ord y m d - toordinal now
  else ymd2ord y m d - toordinal now - 1.
Proof.
  intros H. unfold sub_days. rewrite !instant_split.
  change (toordinal (midnight y m d)) with (ymd2ord y m d).
  change (time_of_day (midnight y m d)) with 0.
  replace (ymd2ord y m d * us_per_day + 0 - (toordinal now * us_per_day + time_of_day now))
    with ((ymd2ord y m d - toordinal now) * us_per_day - time_of_day now) by lia.
  now apply whole_days.
Qed.

Lemma gt_midnight (y m d : Z) (now : datetime) :
  0 <= time_of_day now < us_per_day ->
  gt now (midnight y m d) =
  if time_of_day now =? 0 then ymd2ord y m d <? toordinal now
  else ymd2ord y m d <=? toordinal now.
Proof.
  intros H. unfold gt. rewrite !instant_split.
  change (toordinal (midnight y m d)) with (ymd2ord y m d).
  change (time_of_day (midnight y m d)) with 0.
  unfold us_per_day in *.
  destruct (Z.eqb_spec (time_of_day now) 0) as [->|Hz].
  - destruct (Z.ltb_spec (ymd2ord y m d) (toordinal now));
      [apply Z.ltb_lt | apply Z.ltb_ge]; lia.
  - destruct (Z.leb_spec (ymd2ord y m d) (toordinal now));
      [apply Z.ltb_lt | apply Z.ltb_ge]; lia.
Qed.

(** The value of [days_to_birthday], for a birthday other than February
    29th and a clock before the year 9999. *)
Lemma days_to_birthday_value (self : record) (b : Birthday) (now : datetime) :
  birthday self = Some b -> birthday_ok b = true ->
  negb ((month (birthday_value b) =? 2) && (day (birthday_value b) =? 29)) = true ->
  valid_datetime now = true -> year now < 9999 ->
  let this_year := ymd2ord (year now) (month (birthday_value b)) (day (birthday_value b)) in
  let next_year := ymd2ord (year now + 1) (month (birthday_value b)) (day (birthday_value b)) in
  let today := toordinal now in
  days_to_birthday self now =
  Ok (Some (if time_of_day now =? 0
            then (if this_year <? today then next_year - today else this_year - today)
            else (if this_year <=? today then next_year - today - 1
                  else this_year - today - 1))).
Proof.
  intros Hb Hok Hfeb Hnow Hy this_year next_year today.
  pose proof (time_of_day_range now Hnow) as Htod.
  unfold birthday_ok in Hok. rewrite !andb_true_iff in Hok.
  destruct Hok as [[[[Hvb _] _] _] _].
  unfold valid_datetime in Hnow. rewrite !andb_true_iff in Hnow.
  destruct Hnow as [[[[Hvn _] _] _] _].
  assert (Hyr : 1 <= year now <= 9999).
  { unfold valid_date, between in Hvn. rewrite !andb_true_iff, !Z.leb_le in Hvn. lia. }
  pose proof (valid_date_any_year _ (year now) _ _ Hvb Hfeb ltac:(lia)) as Hv1.
  pose proof (valid_date_any_year _ (year now + 1) _ _ Hvb Hfeb ltac:(lia)) as Hv2.
  unfold days_to_birthday. rewrite Hb.
  destruct (datetime_ymd_cases (year now) (month (birthday_value b)) (day (birthday_value b)))
    as [[_ ->]|[E _]]; [|congruence].
  destruct (datetime_ymd_cases (year now + 1) (month (birthday_value b)) (day (birthday_value b)))
    as [[_ ->]|[E _]]; [|congruence].
  rewrite gt_midnight by exact Htod. fold this_year today.
  destruct (time_of_day now =? 0) eqn:Ez.
  - destruct (this_year <? today); rewrite sub_days_midnight, Ez by exact Htod;
      reflexivity.
  - destruct (this_year <=? today); rewrite sub_days_midnight, Ez by exact Htod;
      reflexivity.
Qed.

(** X15: what [days_to_birthday] counts.  For a birthday other than
    February 29th and a clock before the year 9999 it raises nothing and
    returns the whole days from now to midnight of the next occurrence:
    at midnight sharp this is the difference of the dates, today's
    birthday counting as 0 days away; at any later time of the day it is
    one less than the difference of the dates, and a birthday today counts
    as passed and is looked for next year. *)
Theorem days_to_birthday_whole_days (self : record) (b : Birthday) (now : datetime) :
  birthday self = Some b -> birthday_ok b = true ->
  negb ((month (birthday_value b) =? 2) && (day (birthday_value b) =? 29)) = true ->
  valid_datetime now = true -> year now < 9999 ->
  let this_year := ymd2ord (year now) (month (birthday_value b)) (day (birthday_value b)) in
  let next_year := ymd2ord (year now + 1) (month (birthday_value b)) (day (birthday_value b)) in
  let today := toordinal now in
  days_to_birthday self now =
    Ok (Some (if time_of_day now =? 0
              then (if this_year <? today then next_year - today else this_year - today)
              else (if this_year <=? today then next_year - today - 1
                    else this_year - today - 1))) /\
  (month (birthday_value b) = month now -> day (birthday_value b) = day now ->
   days_to_birthday self now =
     Ok (Some (if time_of_day now =? 0 then 0 else next_year - today - 1))).
Proof.
  intros Hb Hok Hfeb Hnow Hy this_year next_year today.
  pose proof (days_to_birthday_value self b now Hb Hok Hfeb Hnow Hy) as E.
  cbv zeta in E. fold this_year next_year today in E. split; [exact E|].
  intros Hm Hd. rewrite E.
  assert (Hsame : this_year = today)
    by (subst this_year today; unfold toordinal; now rewrite Hm, Hd).
  rewrite Hsame, Z.ltb_irrefl, Z.leb_refl, Z.sub_diag. reflexivity.
Qed.

Lemma days_to_birthday_whole_days_witness :
  days_to_birthday alice (mkDatetime 2024 6 15 0 0 0 0) = Ok (Some 0) /\
  days_to_birthday alice (mkDatetime 2024 6 15 0 0 0 1) = Ok (Some 364).
Proof.
  split.
  - exact (proj2 (days_to_birthday_whole_days alice (mkBirthday (midnight 1990 6 15))
             (mkDatetime 2024 6 15 0 0 0 0) eq_refl eq_refl eq_refl eq_refl ltac:(cbn; lia))
             eq_refl eq_refl).
  - exact (proj2 (days_to_birthday_whole_days alice (mkBirthday (midnight 1990 6 15))
             (mkDatetime 2024 6 15 0 0 0 1) eq_refl eq_refl eq_refl eq_refl ltac:(cbn; lia))
             eq_refl eq_refl).
Defined.

(** X16: for a birthday other than February 29th and a clock before the
    year 9999, [days_to_birthday] returns a count between 0 and 365. *)
Theorem days_to_birthday_bounds (self : record) (b : Birthday) (now : datetime) :
  birthday self = Some b -> birthday_ok b = true ->
  negb ((month (birthday_value b) =? 2) && (day (birthday_value b) =? 29)) = true ->
  valid_datetime now = true -> year now < 9999 ->
  exists n, days_to_birthday self now = Ok (Some n) /\ 0 <= n <= 365.
Proof.
  intros Hb Hok Hfeb Hnow Hy.
  rewrite (days_to_birthday_value self b now Hb Hok Hfeb Hnow Hy).
  eexists. split; [reflexivity|].
  unfold birthday_ok in Hok. rewrite !andb_true_iff in Hok.
  destruct Hok as [[[[Hvb _] _] _] _].
  unfold valid_datetime in Hnow. rewrite !andb_true_iff in Hnow.
  destruct Hnow as [[[[Hvn _] _] _] _].
  assert (Hyr : 1 <= year now <= 9999).
  { unfold valid_date, between in Hvn. rewrite !andb_true_iff, !Z.leb_le in Hvn. lia. }
  pose proof (valid_date_any_year _ (year now) _ _ Hvb Hfeb ltac:(lia)) as Hv1.
  pose proof (valid_date_any_year _ (year now + 1) _ _ Hvb Hfeb ltac:(lia)) as Hv2.
  assert (Hm : 1 <= month (birthday_value b) <= 12).
  { unfold valid_date, between in Hvb. rewrite !andb_true_iff, !Z.leb_le in Hvb. lia. }
  pose proof (day_of_year_range _ _ _ Hvn) as F1.
  pose proof (day_of_year_range _ _ _ Hv1) as F2.
  pose proof (day_of_year_range _ _ _ Hv2) as F3.
  pose proof (leap_day_range (year now)) as HL.
  pose proof (leap_day_range (year now + 1)) as HL'.
  assert (F4 : ymd2ord (year now + 1) (month (birthday_value b)) (day (birthday_value b)) -
               ymd2ord (year now) (month (birthday_value b)) (day (birthday_value b)) <= 366).
  { unfold ymd2ord. rewrite days_before_year_succ.
    rewrite !days_before_month_formula by exact Hm.
    destruct (2 <? month (birthday_value b)); lia. }
  unfold toordinal in *. unfold ymd2ord in *. rewrite days_before_year_succ in *.
  destruct (time_of_day now =? 0);
    [ destruct (Z.ltb_spec
        (days_before_year (year now) +
         days_before_month (year now) (month (birthday_value b)) + day (birthday_value b))
        (days_before_year (year now) + days_before_month (year now) (month now) + day now))
    | destruct (Z.leb_spec
        (days_before_year (year now) +
         days_before_month (year now) (month (birthday_value b)) + day (birthday_value b))
        (days_before_year (year now) + days_before_month (year now) (month now) + day now)) ];
    lia.
Qed.

Lemma days_to_birthday_bounds_witness :
  exists n, days_to_birthday alice (mkDatetime 2024 12 31 23 59 59 999999) = Ok (Some n) /\
            0 <= n <= 365.
Proof.
  exact (days_to_birthday_bounds alice (mkBirthday (midnight 1990 6 15))
           (mkDatetime 2024 12 31 23 59 59 999999) eq_refl eq_refl eq_refl eq_refl
           ltac:(cbn; lia)).
Defined.

(** ** Record: the constructor *)

Lemma comprehension_Phone_new (l : list pyval) (ps : list Phone) :
  comprehension Phone_new l = Ok ps -> ps = map mkPhone l.
Proof.
  revert ps. induction l as [|v l IH]; intros ps; cbn [comprehension map].
  - now intros [= <-].
  - rewrite Phone_new_format. destruct (phone_format v); [|discriminate].
    destruct (comprehension Phone_new l) as [qs|]; [|discriminate].
    intros [= <-]. now rewrite (IH qs eq_refl).
Qed.

Lemma forallb_made_phones (l : list pyval) :
  forallb (fun p => phone_format (phone_value p)) (map mkPhone l) = forallb phone_format l.
Proof. induction l as [|v l IH]; cbn; [reflexivity | now rewrite IH]. Qed.

Lemma comprehension_Phone_new_ok (l : list pyval) :
  is_ok (comprehension Phone_new l) = forallb phone_format l.
Proof.
  induction l as [|v l IH]; cbn [comprehension forallb]; [reflexivity|].
  rewrite Phone_new_format. destruct (phone_format v); cbn [andb]; [|reflexivity].
  rewrite <- IH. now destruct (comprehension Phone_new l).
Qed.

Lemma Birthday_new_ok (v : pyval) (b : Birthday) :
  Birthday_new v = Ok b -> birthday_ok b = true.
Proof.
  destruct v as [|s|z]; try discriminate. rewrite Birthday_new_strptime.
  destruct (strptime_ymd (PyStr s)) as [t|[msg| | |]] eqn:Et; try discriminate.
  intros [= <-]. apply strptime_ok_inv in Et. destruct Et as [Et Hv].
  unfold birthday_ok. cbn [birthday_value]. rewrite Hv, Et. reflexivity.
Qed.

Lemma Record_new_outcome (name_ : string) (birthday_ : pyval)
        (phones_ : option (list pyval)) :
  is_ok (Record_new name_ birthday_ phones_) =
    (negb (truthy birthday_) || is_ok (Birthday_new birthday_)) &&
    forallb phone_format (phones_given phones_) /\
  (forall r, Record_new name_ birthday_ phones_ = Ok r ->
     name r = mkName name_ /\
     phones r = map mkPhone (phones_given phones_) /\
     (if truthy birthday_
      then exists b, birthday r = Some b /\ Birthday_new birthday_ = Ok b
      else birthday r = None) /\
     record_valid r = true).
Proof.
  unfold Record_new, phones_given.
  assert (Hps : match phones_ with
                | Some (p :: ps) => comprehension Phone_new (p :: ps)
                | _ => Ok []
                end = comprehension Phone_new match phones_ with Some l => l | None => [] end)
    by (now destruct phones_ as [[|p ps]|]).
  rewrite Hps. clear Hps.
  set (l := match phones_ with Some l => l | None => [] end).
  pose proof (comprehension_Phone_new_ok l) as Hok.
  pose proof (comprehension_Phone_new l) as Hc.
  split.
  - destruct (truthy birthday_); cbn [negb orb].
    + destruct (Birthday_new birthday_); cbn [is_ok andb]; [|reflexivity].
      rewrite <- Hok. now destruct (comprehension Phone_new l).
    + rewrite <- Hok. now destruct (comprehension Phone_new l).
  - intros r Hr.
    destruct (truthy birthday_) eqn:Ht.
    + destruct (Birthday_new birthday_) as [b|] eqn:Eb; [|discriminate].
      destruct (comprehension Phone_new l) as [ps|] eqn:Ec; [|discriminate].
      injection Hr as <-. cbn [name phones birthday]. cbn [is_ok] in Hok.
      rewrite (Hc ps eq_refl).
      repeat split; [now exists b|]. unfold record_valid. cbn [phones birthday].
      rewrite (Birthday_new_ok _ _ Eb), andb_true_r, forallb_made_phones.
      now rewrite <- Hok.
    + destruct (comprehension Phone_new l) as [ps|] eqn:Ec; [|discriminate].
      injection Hr as <-. cbn [name phones birthday]. cbn [is_ok] in Hok.
      rewrite (Hc ps eq_refl).
      repeat split. unfold record_valid. cbn [phones birthday].
      rewrite andb_true_r, forallb_made_phones. now rewrite <- Hok.
Qed.

(** X17: the constructor of [Record].  It succeeds exactly when the
    birthday given is empty ([None], the empty string) or a date
    [Birthday] accepts, and every phone given is one [Phone] accepts; an
    empty birthday gives a record with no birthday and raises nothing;
    the record made holds the name as given and the phones in the order
    given, and is a valid record. *)
Theorem Record_new_accepts (name_ : string) (birthday_ : pyval)
        (phones_ : option (list pyval)) :
  is_ok (Record_new name_ birthday_ phones_) =
    (negb (truthy birthday_) || is_ok (Birthday_new birthday_)) &&
    forallb phone_format (phones_given phones_) /\
  (forall r, Record_new name_ birthday_ phones_ = Ok r ->
     name r = mkName name_ /\
     phones r = map mkPhone (phones_given phones_) /\
     (if truthy birthday_
      then exists b, birthday r = Some b /\ Birthday_new birthday_ = Ok b
      else birthday r = None) /\
     record_valid r = true).
Proof. apply Record_new_outcome. Qed.

Lemma Record_new_accepts_witness :
  Record_new "Ann" (PyStr "") (Some [PyStr "1234567890"; PyStr "1234567890"]) =
  Ok (mkRecord (mkName "Ann") None [mkPhone (PyStr "1234567890"); mkPhone (PyStr "1234567890")]).
Proof.
  destruct (Record_new "Ann" (PyStr "") (Some [PyStr "1234567890"; PyStr "1234567890"]))
    as [r|e] eqn:E.
  - destruct (proj2 (Record_new_accepts "Ann" (PyStr "")
                       (Some [PyStr "1234567890"; PyStr "1234567890"])) r E)
      as (Hn & Hp & Hb & _).
    destruct r as [n b ps]. cbn in Hn, Hp, Hb. now subst.
  - discriminate E.
Defined.

(** ** load_from_file: any file *)

Lemma dict_set_keys (key : string) (v : record) (d : dict) :
  map fst (dict_set key v d) =
  if dict_has key d then map fst d else map fst d ++ [key].
Proof.
  induction d as [|[k x] d IH]; cbn; [reflexivity|].
  destruct (String.eqb_spec k key) as [->|_]; cbn; [reflexivity|].
  rewrite IH. now destruct (dict_has key d).
Qed.

Lemma dict_set_forall (P : string * record -> bool) (key : string) (v : record) (d : dict) :
  (forall k, P (k, v) = true) ->
  forallb P d = true -> forallb P (dict_set key v d) = true.
Proof.
  intros Hv. induction d as [|[k x] d IH]; cbn [dict_set forallb].
  - now rewrite Hv.
  - rewrite andb_true_iff. intros [Hx Hd].
    destruct (k =? key)%string; cbn [forallb]; [now rewrite Hv, Hd | now rewrite Hx, IH].
Qed.

Lemma dict_set_keyed (v : record) (d : dict) :
  keyed_by_name d = true ->
  keyed_by_name (dict_set (name_value (name v)) v d) = true.
Proof.
  unfold keyed_by_name. induction d as [|[k x] d IH]; cbn [dict_set forallb fst snd].
  - now rewrite String.eqb_refl.
  - rewrite andb_true_iff. intros [Hx Hd].
    destruct (String.eqb_spec k (name_value (name v))) as [->|_]; cbn [forallb fst snd].
    + now rewrite String.eqb_refl, Hd.
    + now rewrite Hx, IH.
Qed.

Lemma load_entries_any (entries : list json_entry) (acc d : dict) :
  load_entries entries acc = Ok d ->
  keyed_by_name acc = true -> NoDup (map fst acc) ->
  forallb (fun e => record_valid (snd e)) acc = true ->
  keyed_by_name d = true /\ NoDup (map fst d) /\
  forallb (fun e => record_valid (snd e)) d = true /\
  (forall k, In k (map fst d) <-> In k (map fst acc) \/ In k (map j_name entries)).
Proof.
  revert acc. induction entries as [|e entries IH]; intros acc; cbn [load_entries map].
  - intros [= <-] Hk Hn Hv. repeat split; try assumption; [tauto|intros [H|[]]; exact H].
  - destruct (Record_new _ _ _) as [r|] eqn:Er; [|discriminate].
    pose proof (proj2 (proj2 (proj2 (proj2 (Record_new_outcome _ _ _) r Er)))) as Hr.
    pose proof (Record_new_name _ _ _ _ Er) as Hname.
    intros Hl Hk Hn Hv. apply IH in Hl.
    + destruct Hl as (K & N & V & Hkeys). repeat split; try assumption.
      * intros Hin. apply Hkeys in Hin. rewrite dict_set_keys in Hin.
        destruct (dict_has (j_name e) acc) eqn:Eh.
        -- cbn [In]. tauto.
        -- destruct Hin as [Hin|Hin]; [|cbn [In]; tauto].
           apply in_app_or in Hin. cbn [In] in *. tauto.
      * intros Hin. apply Hkeys. rewrite dict_set_keys.
        destruct (dict_has (j_name e) acc) eqn:Eh.
        -- destruct Hin as [Hin|[<-|Hin]]; [tauto| |tauto]. left. now apply dict_has_In.
        -- destruct Hin as [Hin|[<-|Hin]]; [| |tauto]; left; apply in_or_app;
             [now left | right; now left].
    + replace (j_name e) with (name_value (name r)) by now rewrite Hname.
      now apply dict_set_keyed.
    + rewrite dict_set_keys. destruct (dict_has (j_name e) acc) eqn:Eh; [exact Hn|].
      apply NoDup_app; repeat split; [exact Hn | repeat constructor; intros [] |].
      intros x Hx [<-|[]]. apply dict_has_In in Hx. congruence.
    + apply dict_set_forall; [intros k; exact Hr | exact Hv].
Qed.

Lemma load_entries_is_ok (entries : list json_entry) (acc : dict) :
  is_ok (load_entries entries acc) = forallb entry_ok entries.
Proof.
  revert acc. induction entries as [|e entries IH]; intros acc;
    cbn [load_entries forallb]; [reflexivity|].
  unfold entry_ok at 1.
  rewrite <- (proj1 (Record_new_outcome (j_name e) (j_birthday e) (j_phones e))).
  destruct (Record_new _ _ _); cbn [is_ok andb]; [apply IH | reflexivity].
Qed.

Lemma load_entries_first_refused (pre post : list json_entry) (e : json_entry)
      (ex : exn) (acc : dict) :
  forallb entry_ok pre = true -> entry_record e = Raise ex ->
  load_entries (pre ++ e :: post) acc = Raise ex.
Proof.
  unfold entry_record. intros Hpre He. revert acc Hpre.
  induction pre as [|x pre IH]; intros acc Hpre; cbn [app load_entries forallb] in *.
  - now rewrite He.
  - apply andb_prop in Hpre. destruct Hpre as [Hx Hpre]. unfold entry_ok in Hx.
    rewrite <- (proj1 (Record_new_outcome (j_name x) (j_birthday x) (j_phones x))) in Hx.
    destruct (Record_new (j_name x) (j_birthday x) (j_phones x));
      [now apply IH | discriminate].
Qed.

Lemma load_entries_distinct_names (entries : list json_entry) (rs : list record) (acc : dict) :
  comprehension entry_record entries = Ok rs ->
  NoDup (map fst acc ++ map j_name entries) ->
  load_entries entries acc = Ok (acc ++ combine (map j_name entries) rs).
Proof.
  unfold entry_record. revert rs acc.
  induction entries as [|e entries IH]; intros rs acc;
    cbn [comprehension load_entries map].
  - intros [= <-] _. cbn. now rewrite app_nil_r.
  - destruct (Record_new _ _ _) as [r|]; [|discriminate].
    destruct (comprehension _ entries) as [rs'|] eqn:Ec; [|discriminate].
    intros [= <-] Hn. rewrite dict_set_fresh.
    + rewrite (IH rs' _ eq_refl); [cbn [combine]; now rewrite <- app_assoc|].
      rewrite map_app, <- app_assoc. exact Hn.
    + apply NoDup_remove_2 in Hn. intros Hin. apply Hn, in_or_app. now left.
Qed.

(** X18: [load_from_file] on any file.  A missing file raises nothing and
    leaves the book as it is.  A file loads exactly when [Record] accepts
    every entry (an empty birthday or a valid one, valid phones); if some
    entry is refused, the load raises the exception of the first such
    entry and leaves the book as it is, whatever the other entries.  A
    file that loads replaces the dict by one whose keys are distinct and
    are exactly the names in the file, each over a valid record of that
    name; when the names in the file are distinct, the dict holds the
    records [Record] makes of the entries, under their names, in the order
    of the file. *)
Theorem load_from_file_any_file (entries : list json_entry) (self : AddressBook) :
  load_from_file None self = (self, Ok tt) /\
  (forall e, snd (load_from_file (Some entries) self) = Raise e ->
             fst (load_from_file (Some entries) self) = self) /\
  (snd (load_from_file (Some entries) self) = Ok tt ->
   let d := data (fst (load_from_file (Some entries) self)) in
   keyed_by_name d = true /\ distinct (map fst d) = true /\
   forallb (fun x => record_valid (snd x)) d = true /\
   (forall k, In k (map fst d) <-> In k (map j_name entries))) /\
  is_ok (snd (load_from_file (Some entries) self)) = forallb entry_ok entries /\
  (forall pre e post ex,
     entries = pre ++ e :: post -> forallb entry_ok pre = true ->
     entry_record e = Raise ex ->
     load_from_file (Some entries) self = (self, Raise ex)) /\
  (forall rs,
     comprehension entry_record entries = Ok rs -> NoDup (map j_name entries) ->
     load_from_file (Some entries) self =
     (set_data (combine (map j_name entries) rs) self, Ok tt)).
Proof.
  split; [reflexivity|]. unfold load_from_file.
  pose proof (load_entries_is_ok entries []) as Hok.
  split; [|split; [|split; [|split]]].
  - destruct (load_entries entries []); [discriminate | reflexivity].
  - destruct (load_entries entries []) as [d|ex] eqn:E; cbn [fst snd]; [|discriminate].
    intros _. cbn [data set_data].
    destruct (load_entries_any entries [] d E eq_refl (NoDup_nil _) eq_refl)
      as (K & N & V & Hkeys).
    repeat split; try assumption.
    + now apply distinct_NoDup.
    + intros H. apply Hkeys in H. destruct H as [[]|H]. exact H.
    + intros H. apply Hkeys. now right.
  - rewrite <- Hok. now destruct (load_entries entries []).
  - intros pre e post ex -> Hpre He.
    now rewrite (load_entries_first_refused pre post e ex [] Hpre He).
  - intros rs Hc Hn. now rewrite (load_entries_distinct_names entries rs [] Hc Hn).
Qed.

Lemma load_from_file_any_file_witness :
  load_from_file
    (Some [mkEntry "Ann" PyNone (Some [PyStr "1234567890"]);
           mkEntry "Ben" (PyStr "2023-02-30") None;
           mkEntry "Cy" PyNone (Some [PyStr "12"])]) alice_and_bob =
  (alice_and_bob, Raise invalid_birthday).
Proof.
  destruct (load_from_file_any_file
              [mkEntry "Ann" PyNone (Some [PyStr "1234567890"]);
               mkEntry "Ben" (PyStr "2023-02-30") None;
               mkEntry "Cy" PyNone (Some [PyStr "12"])] alice_and_bob)
    as (_ & _ & _ & _ & H & _).
  exact (H [mkEntry "Ann" PyNone (Some [PyStr "1234567890"])]
           (mkEntry "Ben" (PyStr "2023-02-30") None)
           [mkEntry "Cy" PyNone (Some [PyStr "12"])] invalid_birthday
           eq_refl eq_refl eq_refl).
Defined.

(** ** Sequences of operations *)

(** X19: starting from a new book, every sequence of add_record, delete,
    change_phone, save_to_file and load_from_file leaves a book in which
    every record sits under its own name and no two records have the same
    name up to case, and leaves a file with one entry per name, provided
    the file read at the start is absent or has one entry per name up to
    case. *)
Theorem run_keeps_book_inv (ops : list op) (file : option (list json_entry)) :
  file_one_per_name file = true ->
  book_inv (fst (run ops (AddressBook_new, file))) = true /\
  file_one_per_name (snd (run ops (AddressBook_new, file))) = true.
Proof.
  intros Hf.
  assert (H : forall st, book_inv (fst st) = true -> file_one_per_name (snd st) = true ->
                         book_inv (fst (run ops st)) = true /\
                         file_one_per_name (snd (run ops st)) = true).
  { unfold run. induction ops as [|o ops IH]; intros st Hb Hs; [now split|].
    cbn [fold_left]. destruct (step_inv o st Hb Hs). now apply IH. }
  now apply H.
Qed.

Lemma run_keeps_book_inv_witness :
  book_inv (fst (run [OpAdd alice; OpSave; OpAdd bob; OpLoad; OpDelete "ALICE"]
                     (AddressBook_new, None))) = true.
Proof.
  exact (proj1 (run_keeps_book_inv [OpAdd alice; OpSave; OpAdd bob; OpLoad; OpDelete "ALICE"]
                  None eq_refl)).
Defined.

(** X20: a book built from a new one, with no file to start with, by
    operations that bring no [None] phone and no birthday before the year
    1000 (the records added hold numbers only and a birthday, if any, of
    the year 1000 or later; a phone is changed to a string) can be saved
    and loaded again at any point: loading what [save_to_file] writes of
    it into a new book raises nothing and gives the same dict.  A birthday
    before the year 1000 is written with fewer than four digits of year,
    which the load refuses. *)
Theorem run_then_save_then_load (ops : list op) :
  forallb op_ok ops = true ->
  let book := fst (run ops (AddressBook_new, None)) in
  load_from_file (Some (save_to_file book)) AddressBook_new =
  (set_data (data book) AddressBook_new, Ok tt).
Proof.
  intros Ho book. pose proof (run_keeps_book_ok ops Ho) as Hok. fold book in Hok.
  apply book_ok_no_none_phone in Hok. unfold no_none_phone in Hok.
  rewrite !andb_true_iff, distinct_NoDup in Hok. destruct Hok as [[Hk Hn] Hr].
  unfold load_from_file, save_to_file, values.
  now rewrite (load_entries_saved (data book) [] Hk Hr Hn).
Qed.

Lemma run_then_save_then_load_witness :
  let book := fst (run [OpAdd alice; OpAdd bob;
                        OpChange "bob" (PyStr "5552223333") (PyStr "0987654321")]
                       (AddressBook_new, None)) in
  load_from_file (Some (save_to_file book)) AddressBook_new =
  (set_data (data book) AddressBook_new, Ok tt).
Proof.
  exact (run_then_save_then_load
           [OpAdd alice; OpAdd bob;
            OpChange "bob" (PyStr "5552223333") (PyStr "0987654321")] eq_refl).
Defined.

(** ** Birthday: the setter *)

(** X21: an assignment to the value of a [Birthday] either stores the
    parsed date, midnight of a valid day, or raises and leaves the value
    as it was.  A value that is no string raises TypeError, [None]
    included: the validation lets [None] through, and parsing it then
    raises; a string that does not parse raises ValueError("Invalid
    birthday format. Please use YYYY-MM-DD"). *)
Theorem Birthday_set_value_outcome (v : pyval) (cell : option datetime) :
  (isinstance_str v = false -> Birthday_set_value v cell = (cell, Raise TypeError)) /\
  (isinstance_str v = true ->
   Birthday_set_value v cell =
   match strptime_ymd v with
   | Ok t => (Some t, Ok tt)
   | Raise _ => (cell, Raise invalid_birthday)
   end) /\
  (forall e, snd (Birthday_set_value v cell) = Raise e ->
             fst (Birthday_set_value v cell) = cell) /\
  (snd (Birthday_set_value v cell) = Ok tt ->
   exists t, fst (Birthday_set_value v cell) = Some t /\
             birthday_ok (mkBirthday t) = true).
Proof.
  unfold Birthday_set_value, validate_birthday, bind, pure, put.
  destruct v as [|s|z]; cbn [is_None negb isinstance_str].
  - repeat split; try discriminate; reflexivity.
  - destruct (strptime_str_cases s) as [[t Et]|[msg Et]]; rewrite Et.
    + repeat split; try discriminate; try reflexivity. intros _. exists t.
      split; [reflexivity|].
      apply strptime_ok_inv in Et. destruct Et as [Et Hv].
      unfold birthday_ok. cbn [birthday_value]. rewrite Hv, Et. reflexivity.
    + repeat split; try discriminate; reflexivity.
  - repeat split; try discriminate; reflexivity.
Qed.

Lemma Birthday_set_value_outcome_witness :
  Birthday_set_value PyNone (Some (midnight 1990 6 15)) =
    (Some (midnight 1990 6 15), Raise TypeError) /\
  Birthday_set_value (PyStr "1991-07-16") (Some (midnight 1990 6 15)) =
    (Some (midnight 1991 7 16), Ok tt).
Proof.
  split.
  - exact (proj1 (Birthday_set_value_outcome PyNone (Some (midnight 1990 6 15))) eq_refl).
  - exact (proj1 (proj2 (Birthday_set_value_outcome (PyStr "1991-07-16")
                           (Some (midnight 1990 6 15)))) eq_refl).
Defined.
